(** * Quidquid: typed, fail-fast field extraction over untyped data

    A shallow embedding of [src/index.ts].  The file holds two classes,
    one with [pick*] method names (built by the static [Quidquid.from])
    and one with [get*] method names (built by the module function
    [from]); both are embedded, method by method, in the modules [Pick]
    and [Get] below.

    - The wrapped payload ([any] in the source) is a tree of JavaScript
      data: [undefined], [null], booleans, IEEE binary64 numbers, strings,
      arrays and plain objects, or one of the built-in prototype objects
      an accessor can come to wrap by reading [__proto__].
    - A property read [value[key]] finds an own property or a member
      inherited from the built-in prototypes; what it finds is data or a
      function.
    - Every method is [async]: it yields a promise that is fulfilled with a
      value or rejected with what the body threw.  A settled promise is a
      [result]: [Ok v] or [Err e].
    - [z.<schema>.safeParseAsync(value)).success] is the boolean
      [safeParse schema value]. *)

From Stdlib Require Import String Ascii List Bool Arith NArith ZArith Lia.
From Stdlib Require Import Floats Uint63.
Import ListNotations.
Open Scope string_scope.

(** ** JavaScript data *)

(** A JavaScript number is an IEEE 754 binary64 float; the kernel's
    primitive floats are exactly that (with a single NaN). *)
Definition number : Set := PrimFloat.float.

(** The built-in prototype objects that pass for objects:
    [Object.prototype], [String.prototype], [Number.prototype] and
    [Boolean.prototype].  [Array.prototype] is itself an array with no
    elements: the accessors hand it back as data and never wrap it, and
    as data it is the value [VArr []]. *)
Inductive prototype : Set :=
| ObjectPrototype
| StringPrototype
| NumberPrototype
| BooleanPrototype.

#[warnings="-register-all"]
Inductive value : Type :=
| VUndefined
| VNull
| VBool (b : bool)
| VNum (n : number)
| VStr (s : string)
| VArr (elements : list value)
| VObj (fields : list (string * value))
| VProto (p : prototype).

(** What a property read finds: a value, or a function (a method or a
    constructor found on a prototype).  Functions are never data: they
    are not part of a payload, and no schema used here accepts one. *)
Inductive property : Type :=
| Value (v : value)
| Function.

Coercion Value : value >-> property.

(** What an [async] body can throw: [new Error(message)], raised by the
    accessors themselves, or the runtime's [TypeError] when a property is
    read off [undefined] or [null]. *)
Inductive exn : Type :=
| Error (message : string)
| TypeError.

Inductive result (A : Type) : Type :=
| Ok (a : A)
| Err (e : exn).
Arguments Ok {A} & a.
Arguments Err {A} e.

Definition bind {A B : Type} (r : result A) (k : A -> result B) : result B :=
  match r with
  | Ok a => k a
  | Err e => Err e
  end.

Declare Scope js_scope.
Delimit Scope js_scope with js.
Notation "'let!' x ':=' r 'in' k" := (bind r (fun x => k))
  (at level 10, x name, r at level 100, k at level 200) : js_scope.
Open Scope js_scope.

(** A promise of [A] returned where a promise of [A | undefined] is
    expected. *)
Definition some {A : Type} (r : result A) : result (option A) :=
  let! a := r in Ok (Some a).

(** [!value]: the values JavaScript converts to [false].  Objects and
    functions are truthy. *)
Definition falsy (p : property) : bool :=
  match p with
  | Value VUndefined | Value VNull => true
  | Value (VBool b) => negb b
  | Value (VNum n) => PrimFloat.is_zero n || PrimFloat.is_nan n
  | Value (VStr s) => (s =? "")%string
  | Value (VArr _) | Value (VObj _) | Value (VProto _) | Function => false
  end.

(** [value == undefined]: loose equality holds of [undefined] and [null]
    only. *)
Definition looseEqUndefined (p : property) : bool :=
  match p with
  | Value VUndefined | Value VNull => true
  | _ => false
  end.

(** ** Property reads: [value[key]] *)

Fixpoint lookup (key : string) (fields : list (string * value)) : option value :=
  match fields with
  | [] => None
  | (k, v) :: rest => if (k =? key)%string then Some v else lookup key rest
  end.

Definition digit (c : ascii) : option N :=
  let n := N_of_ascii c in
  if (48 <=? n)%N && (n <=? 57)%N then Some (n - 48)%N else None.

Fixpoint digits (s : string) (acc : N) : option N :=
  match s with
  | EmptyString => Some acc
  | String c rest =>
      match digit c with
      | Some d => digits rest (10 * acc + d)%N
      | None => None
      end
  end.

(** The keys that name an element: canonical decimal numerals
    (["0"], ["7"], ["12"]; not [""], ["07"], ["+1"]). *)
Definition canonicalIndex (key : string) : option nat :=
  match key with
  | EmptyString => None
  | String "0"%char EmptyString => Some 0
  | String "0"%char _ => None
  | _ => option_map N.to_nat (digits key 0%N)
  end.

Definition numberOfNat (n : nat) : number :=
  PrimFloat.of_uint63 (Uint63.of_Z (Z.of_nat n)).

(** *** Own properties

    The fields of an object; the elements and [length] of an array or a
    string (a string is its sequence of characters, one code unit each);
    [String.prototype] is a string object of length 0.  Numbers, booleans
    and the other prototypes have no own data. *)
Definition own (v : value) (key : string) : option value :=
  match v with
  | VObj fields => lookup key fields
  | VArr elements =>
      if (key =? "length")%string then Some (VNum (numberOfNat (List.length elements)))
      else
        match canonicalIndex key with
        | Some i => nth_error elements i
        | None => None
        end
  | VStr s =>
      if (key =? "length")%string then Some (VNum (numberOfNat (String.length s)))
      else
        match canonicalIndex key with
        | Some i => option_map (fun c => VStr (String c EmptyString)) (String.get i s)
        | None => None
        end
  | VProto StringPrototype =>
      if (key =? "length")%string then Some (VNum 0%float) else None
  | _ => None
  end.

(** *** Inherited members

    The string-keyed function members of the built-in prototypes, as of
    ECMAScript 2024 with its Annex B. *)
Definition objectMethods : list string :=
  ["constructor"; "hasOwnProperty"; "isPrototypeOf"; "propertyIsEnumerable";
   "toLocaleString"; "toString"; "valueOf";
   "__defineGetter__"; "__defineSetter__"; "__lookupGetter__"; "__lookupSetter__"].

Definition booleanMethods : list string :=
  ["constructor"; "toString"; "valueOf"].

Definition numberMethods : list string :=
  ["constructor"; "toExponential"; "toFixed"; "toLocaleString"; "toPrecision";
   "toString"; "valueOf"].

Definition stringMethods : list string :=
  ["at"; "charAt"; "charCodeAt"; "codePointAt"; "concat"; "constructor";
   "endsWith"; "includes"; "indexOf"; "isWellFormed"; "lastIndexOf";
   "localeCompare"; "match"; "matchAll"; "normalize"; "padEnd"; "padStart";
   "repeat"; "replace"; "replaceAll"; "search"; "slice"; "split"; "startsWith";
   "substring"; "toLocaleLowerCase"; "toLocaleUpperCase"; "toLowerCase";
   "toString"; "toUpperCase"; "toWellFormed"; "trim"; "trimEnd"; "trimStart";
   "valueOf";
   "substr"; "anchor"; "big"; "blink"; "bold"; "fixed"; "fontcolor"; "fontsize";
   "italics"; "link"; "small"; "strike"; "sub"; "sup"; "trimLeft"; "trimRight"].

Definition arrayMethods : list string :=
  ["at"; "concat"; "constructor"; "copyWithin"; "entries"; "every"; "fill";
   "filter"; "find"; "findIndex"; "findLast"; "findLastIndex"; "flat"; "flatMap";
   "forEach"; "includes"; "indexOf"; "join"; "keys"; "lastIndexOf"; "map"; "pop";
   "push"; "reduce"; "reduceRight"; "reverse"; "shift"; "slice"; "some"; "sort";
   "splice"; "toLocaleString"; "toReversed"; "toSorted"; "toSpliced"; "toString";
   "unshift"; "values"; "with"].

Definition named (key : string) (names : list string) : bool :=
  existsb (String.eqb key) names.

(** The methods a value inherits, prototype by prototype up its chain. *)
Definition chain (v : value) : list (list string) :=
  match v with
  | VObj _ | VProto ObjectPrototype => [objectMethods]
  | VArr _ => [arrayMethods; objectMethods]
  | VStr _ | VProto StringPrototype => [stringMethods; objectMethods]
  | VNum _ | VProto NumberPrototype => [numberMethods; objectMethods]
  | VBool _ | VProto BooleanPrototype => [booleanMethods; objectMethods]
  | VUndefined | VNull => []
  end.

(** What [__proto__] reads as: the value's prototype, [null] at the top
    of the chain. *)
Definition protoOf (v : value) : value :=
  match v with
  | VObj _ => VProto ObjectPrototype
  | VArr _ => VArr []
  | VStr _ => VProto StringPrototype
  | VNum _ => VProto NumberPrototype
  | VBool _ => VProto BooleanPrototype
  | VProto ObjectPrototype => VNull
  | VProto _ => VProto ObjectPrototype
  | VUndefined | VNull => VUndefined
  end.

Definition inherited (v : value) (key : string) : property :=
  if (key =? "__proto__")%string then protoOf v
  else if existsb (named key) (chain v) then Function
  else VUndefined.

(** [value[key]] for a string [key].  Reading a property of [undefined]
    or [null] throws.  Otherwise an own property is found first, then
    the members inherited up the prototype chain; a property found
    nowhere reads as [undefined]. *)
Definition getProp (v : value) (key : string) : result property :=
  match v with
  | VUndefined | VNull => Err TypeError
  | _ =>
      match own v key with
      | Some found => Ok (Value found)
      | None => Ok (inherited v key)
      end
  end.

(** ** The validation library

    The accessors only look at [.success] of the schemas [z.string()],
    [z.number()], [z.boolean()], [z.object({})] and [z.array(element)].
    The two major versions of the library agree on all of them except on
    infinite numbers, which [z.number()] accepts in version 3 and rejects
    in version 4; the repository's sources do not say which one it runs
    against, so the version is a parameter. *)

Inductive ZodMajor : Set := Zod3 | Zod4.
Existing Class ZodMajor.

Inductive schema : Set :=
| ZString
| ZNumber
| ZBoolean
| ZObject
| ZArray (element : schema).

Section Validation.
Context {zod : ZodMajor}.

Definition numberSuccess (n : number) : bool :=
  negb (PrimFloat.is_nan n) &&
  match zod with
  | Zod3 => true
  | Zod4 => negb (PrimFloat.is_infinity n)
  end.

(** [z.object({})] accepts whatever is an object and not an array: a
    plain object with any fields, or a prototype object. *)
Fixpoint safeParse (s : schema) (p : property) : bool :=
  match s, p with
  | ZString, Value (VStr _) => true
  | ZNumber, Value (VNum n) => numberSuccess n
  | ZBoolean, Value (VBool _) => true
  | ZObject, Value (VObj _) => true
  | ZObject, Value (VProto _) => true
  | ZArray element, Value (VArr elements) =>
      forallb (fun x => safeParse element (Value x)) elements
  | _, _ => false
  end.
End Validation.
(** ** The [pick*] class (first file of the source) *)

Module Pick.

Record Quidquid : Type := new {
  quidQuid : value;
  parentObjectKey : option string
}.

(** [Quidquid.from(quidQuid)]: the constructor with no parent key. *)
Definition from (quidQuid : value) : Quidquid := new quidQuid None.

(** [!this.parentObjectKey] holds of [undefined] and of the empty string. *)
Definition pickFullkeyName (this : Quidquid) (key : string) : string :=
  match parentObjectKey this with
  | None | Some EmptyString => key
  | Some parent => parent ++ "." ++ key
  end.

(** [new Quidquid(value, key)] on what a read found.  The call is
    reached only with a value that [z.object({})] accepted, which it does
    of no function. *)
Definition newOf (value : property) (key : string) : result Quidquid :=
  match value with
  | Value quidQuid => Ok (new quidQuid (Some key))
  | Function => Err TypeError
  end.

(** [value.map((quidQuid) => new Quidquid(quidQuid))]; only arrays have
    a [map] method among the values modelled here. *)
Definition mapNew (value : property) : result (list Quidquid) :=
  match value with
  | Value (VArr elements) => Ok (map (fun quidQuid => new quidQuid None) elements)
  | _ => Err TypeError
  end.

Section Methods.
Context {zod : ZodMajor}.

Definition pickString (this : Quidquid) (key : string) : result property :=
  let! value := getProp (quidQuid this) key in
  let fullKeyName := pickFullkeyName this key in
  if falsy value then Err (Error (fullKeyName ++ " must not be empty"))
  else
    let parseFailure := negb (safeParse ZString value) in
    if parseFailure then Err (Error (fullKeyName ++ " must be a string"))
    else Ok value.

Definition pickStringOptional (this : Quidquid) (key : string) : result property :=
  let! value := getProp (quidQuid this) key in
  if falsy value then Ok (Value VUndefined)
  else pickString this key.

Definition pickStringArray (this : Quidquid) (key : option string) : result property :=
  match key with
  | None | Some EmptyString =>
      let value : property := quidQuid this in
      if looseEqUndefined value then Err (Error "body must not be empty")
      else
        let parseFailure := negb (safeParse (ZArray ZString) value) in
        if parseFailure then Err (Error "body must be an array of strings")
        else Ok value
  | Some key =>
      let fullKeyName := pickFullkeyName this key in
      let! value := getProp (quidQuid this) key in
      if looseEqUndefined value then Err (Error (fullKeyName ++ " must not be empty"))
      else
        let parseFailure := negb (safeParse (ZArray ZString) value) in
        if parseFailure then Err (Error (fullKeyName ++ " must be an array of strings"))
        else Ok value
  end.

Definition pickStringArrayOptional (this : Quidquid) (key : string) : result property :=
  let! value := getProp (quidQuid this) key in
  if looseEqUndefined value then Ok (Value VUndefined)
  else pickStringArray this (Some key).

Definition pickNumber (this : Quidquid) (key : string) : result property :=
  let fullKeyName := pickFullkeyName this key in
  let! value := getProp (quidQuid this) key in
  if looseEqUndefined value then Err (Error (fullKeyName ++ " must not be empty"))
  else
    let parseFailure := negb (safeParse ZNumber value) in
    if parseFailure then Err (Error (fullKeyName ++ " must be a number"))
    else Ok value.

Definition pickNumberOptional (this : Quidquid) (key : string) : result property :=
  let! value := getProp (quidQuid this) key in
  if looseEqUndefined value then Ok (Value VUndefined)
  else pickNumber this key.

Definition pickNumberArray (this : Quidquid) (key : option string) : result property :=
  match key with
  | None | Some EmptyString =>
      let value : property := quidQuid this in
      if looseEqUndefined value then Err (Error "body must not be empty")
      else
        let parseFailure := negb (safeParse (ZArray ZNumber) value) in
        if parseFailure then Err (Error "body must be an array of numbers")
        else Ok value
  | Some key =>
      let! value := getProp (quidQuid this) key in
      let fullKeyName := pickFullkeyName this key in
      if looseEqUndefined value then Err (Error (fullKeyName ++ " must not be empty"))
      else
        let parseFailure := negb (safeParse (ZArray ZNumber) value) in
        if parseFailure then Err (Error (fullKeyName ++ " must be an array of numbers"))
        else Ok value
  end.

Definition pickNumberArrayOptional (this : Quidquid) (key : string) : result property :=
  let! value := getProp (quidQuid this) key in
  if looseEqUndefined value then Ok (Value VUndefined)
  else pickNumberArray this (Some key).

Definition pickBoolean (this : Quidquid) (key : string) : result property :=
  let fullKeyName := pickFullkeyName this key in
  let! value := getProp (quidQuid this) key in
  if looseEqUndefined value then Err (Error (fullKeyName ++ " must not be empty"))
  else
    let parseFailure := negb (safeParse ZBoolean value) in
    if parseFailure then Err (Error (fullKeyName ++ " must be a boolean"))
    else Ok value.

Definition pickBooleanOptional (this : Quidquid) (key : string) : result property :=
  let! value := getProp (quidQuid this) key in
  if looseEqUndefined value then Ok (Value VUndefined)
  else pickBoolean this key.

Definition pickObject (this : Quidquid) (key : string) : result Quidquid :=
  let fullKeyName := pickFullkeyName this key in
  let! value := getProp (quidQuid this) key in
  if looseEqUndefined value then Err (Error (fullKeyName ++ " must not be empty"))
  else
    let parseFailure := negb (safeParse ZObject value) in
    if parseFailure then Err (Error (fullKeyName ++ " must be an object"))
    else newOf value key.

Definition pickObjectOptional (this : Quidquid) (key : string)
  : result (option Quidquid) :=
  let! value := getProp (quidQuid this) key in
  if looseEqUndefined value then Ok None
  else some (pickObject this key).

Definition pickObjectArray (this : Quidquid) (key : option string)
  : result (list Quidquid) :=
  match key with
  | None | Some EmptyString =>
      let value : property := quidQuid this in
      if looseEqUndefined value then Err (Error "body must not be empty")
      else
        let parseFailure := negb (safeParse (ZArray ZObject) value) in
        if parseFailure then Err (Error "body must be an array of objects")
        else mapNew value
  | Some key =>
      let fullKeyName := pickFullkeyName this key in
      let! value := getProp (quidQuid this) key in
      if looseEqUndefined value then Err (Error (fullKeyName ++ " must not be empty"))
      else
        let parseFailure := negb (safeParse (ZArray ZObject) value) in
        if parseFailure then Err (Error (fullKeyName ++ " must be an array of objects"))
        else mapNew value
  end.

Definition pickObjectArrayOptional (this : Quidquid) (key : string)
  : result (option (list Quidquid)) :=
  let! value := getProp (quidQuid this) key in
  if looseEqUndefined value then Ok None
  else some (pickObjectArray this (Some key)).
End Methods.

End Pick.

(** ** The [get*] class (second file of the source) *)

Module Get.

Record Quidquid : Type := new {
  quidQuid : value;
  parentObjectKey : option string
}.

(** The module function [from(quidQuid)]. *)
Definition from (quidQuid : value) : Quidquid := new quidQuid None.

(** [!this.parentObjectKey] holds of [undefined] and of the empty string. *)
Definition getFullkeyName (this : Quidquid) (key : string) : string :=
  match parentObjectKey this with
  | None | Some EmptyString => key
  | Some parent => parent ++ "." ++ key
  end.

(** [new Quidquid(value, key)] on what a read found.  The call is
    reached only with a value that [z.object({})] accepted, which it does
    of no function. *)
Definition newOf (value : property) (key : string) : result Quidquid :=
  match value with
  | Value quidQuid => Ok (new quidQuid (Some key))
  | Function => Err TypeError
  end.

(** [value.map((quidQuid) => new Quidquid(quidQuid))]; only arrays have
    a [map] method among the values modelled here. *)
Definition mapNew (value : property) : result (list Quidquid) :=
  match value with
  | Value (VArr elements) => Ok (map (fun quidQuid => new quidQuid None) elements)
  | _ => Err TypeError
  end.

Section Methods.
Context {zod : ZodMajor}.

Definition getString (this : Quidquid) (key : string) : result property :=
  let! value := getProp (quidQuid this) key in
  let fullKeyName := getFullkeyName this key in
  if falsy value then Err (Error (fullKeyName ++ " must not be empty"))
  else
    let parseFailure := negb (safeParse ZString value) in
    if parseFailure then Err (Error (fullKeyName ++ " must be a string"))
    else Ok value.

Definition getStringOptional (this : Quidquid) (key : string) : result property :=
  let! value := getProp (quidQuid this) key in
  if falsy value then Ok (Value VUndefined)
  else getString this key.

Definition getStringArray (this : Quidquid) (key : option string) : result property :=
  match key with
  | None | Some EmptyString =>
      let value : property := quidQuid this in
      if looseEqUndefined value then Err (Error "body must not be empty")
      else
        let parseFailure := negb (safeParse (ZArray ZString) value) in
        if parseFailure then Err (Error "body must be an array of strings")
        else Ok value
  | Some key =>
      let fullKeyName := getFullkeyName this key in
      let! value := getProp (quidQuid this) key in
      if looseEqUndefined value then Err (Error (fullKeyName ++ " must not be empty"))
      else
        let parseFailure := negb (safeParse (ZArray ZString) value) in
        if parseFailure then Err (Error (fullKeyName ++ " must be an array of strings"))
        else Ok value
  end.

Definition getStringArrayOptional (this : Quidquid) (key : string) : result property :=
  let! value := getProp (quidQuid this) key in
  if looseEqUndefined value then Ok (Value VUndefined)
  else getStringArray this (Some key).

Definition getNumber (this : Quidquid) (key : string) : result property :=
  let fullKeyName := getFullkeyName this key in
  let! value := getProp (quidQuid this) key in
  if looseEqUndefined value then Err (Error (fullKeyName ++ " must not be empty"))
  else
    let parseFailure := negb (safeParse ZNumber value) in
    if parseFailure then Err (Error (fullKeyName ++ " must be a number"))
    else Ok value.

Definition getNumberOptional (this : Quidquid) (key : string) : result property :=
  let! value := getProp (quidQuid this) key in
  if looseEqUndefined value then Ok (Value VUndefined)
  else getNumber this key.

Definition getNumberArray (this : Quidquid) (key : option string) : result property :=
  match key with
  | None | Some EmptyString =>
      let value : property := quidQuid this in
      if looseEqUndefined value then Err (Error "body must not be empty")
      else
        let parseFailure := negb (safeParse (ZArray ZNumber) value) in
        if parseFailure then Err (Error "body must be an array of numbers")
        else Ok value
  | Some key =>
      let! value := getProp (quidQuid this) key in
      let fullKeyName := getFullkeyName this key in
      if looseEqUndefined value then Err (Error (fullKeyName ++ " must not be empty"))
      else
        let parseFailure := negb (safeParse (ZArray ZNumber) value) in
        if parseFailure then Err (Error (fullKeyName ++ " must be an array of numbers"))
        else Ok value
  end.

Definition getNumberArrayOptional (this : Quidquid) (key : string) : result property :=
  let! value := getProp (quidQuid this) key in
  if looseEqUndefined value then Ok (Value VUndefined)
  else getNumberArray this (Some key).

Definition getBoolean (this : Quidquid) (key : string) : result property :=
  let fullKeyName := getFullkeyName this key in
  let! value := getProp (quidQuid this) key in
  if looseEqUndefined value then Err (Error (fullKeyName ++ " must not be empty"))
  else
    let parseFailure := negb (safeParse ZBoolean value) in
    if parseFailure then Err (Error (fullKeyName ++ " must be a boolean"))
    else Ok value.

Definition getBooleanOptional (this : Quidquid) (key : string) : result property :=
  let! value := getProp (quidQuid this) key in
  if looseEqUndefined value then Ok (Value VUndefined)
  else getBoolean this key.

Definition getObject (this : Quidquid) (key : string) : result Quidquid :=
  let fullKeyName := getFullkeyName this key in
  let! value := getProp (quidQuid this) key in
  if looseEqUndefined value then Err (Error (fullKeyName ++ " must not be empty"))
  else
    let parseFailure := negb (safeParse ZObject value) in
    if parseFailure then Err (Error (fullKeyName ++ " must be an object"))
    else newOf value key.

Definition getObjectOptional (this : Quidquid) (key : string)
  : result (option Quidquid) :=
  let! value := getProp (quidQuid this) key in
  if looseEqUndefined value then Ok None
  else some (getObject this key).

Definition getObjectArray (this : Quidquid) (key : option string)
  : result (list Quidquid) :=
  match key with
  | None | Some EmptyString =>
      let value : property := quidQuid this in
      if looseEqUndefined value then Err (Error "body must not be empty")
      else
        let parseFailure := negb (safeParse (ZArray ZObject) value) in
        if parseFailure then Err (Error "body must be an array of objects")
        else mapNew value
  | Some key =>
      let fullKeyName := getFullkeyName this key in
      let! value := getProp (quidQuid this) key in
      if looseEqUndefined value then Err (Error (fullKeyName ++ " must not be empty"))
      else
        let parseFailure := negb (safeParse (ZArray ZObject) value) in
        if parseFailure then Err (Error (fullKeyName ++ " must be an array of objects"))
        else mapNew value
  end.

Definition getObjectArrayOptional (this : Quidquid) (key : string)
  : result (option (list Quidquid)) :=
  let! value := getProp (quidQuid this) key in
  if looseEqUndefined value then Ok None
  else some (getObjectArray this (Some key)).
End Methods.

End Get.

(** ** The [pick*] class with its objects in a heap

    The class once more, this time as the source has it: accessors are
    objects, [this] is a reference, a field is read off the object the
    reference names, and the constructor allocates an object and assigns
    its two fields.  Programs are state transformers over the heap that
    may throw; the heap is kept as it is at the point of the throw. *)

Module Objects.

Definition ref : Set := nat.
Definition heap : Type := list Pick.Quidquid.

Definition deref (h : heap) (r : ref) : option Pick.Quidquid := nth_error h r.

(** A heap [h'] extends [h] when every object of [h] is still there,
    unchanged, at the same reference. *)
Definition extends (h h' : heap) : Prop :=
  forall r object, deref h r = Some object -> deref h' r = Some object.

Definition M (A : Type) : Type := heap -> result A * heap.

(** A program keeps the frame when, run on any heap, it leaves every
    object that was there as it was. *)
Definition frame {A : Type} (m : M A) : Prop :=
  forall h, extends h (snd (m h)).

Definition ret {A : Type} (a : A) : M A := fun h => (Ok a, h).

Definition throw {A : Type} (e : exn) : M A := fun h => (Err e, h).

Definition lift {A : Type} (r : result A) : M A := fun h => (r, h).

Definition bindM {A B : Type} (m : M A) (k : A -> M B) : M B :=
  fun h =>
    match m h with
    | (Ok a, h1) => k a h1
    | (Err e, h1) => (Err e, h1)
    end.

Notation "'do' x '<-' m ';' k" := (bindM m (fun x => k))
  (at level 10, x name, m at level 100, k at level 200).

Fixpoint mapM {A B : Type} (f : A -> M B) (l : list A) : M (list B) :=
  match l with
  | [] => ret []
  | a :: rest => do b <- f a; do bs <- mapM f rest; ret (b :: bs)
  end.

(** *** Objects and their fields *)

Fixpoint update (h : heap) (r : ref) (f : Pick.Quidquid -> Pick.Quidquid) : heap :=
  match h, r with
  | [], _ => []
  | object :: rest, O => f object :: rest
  | object :: rest, S r' => object :: update rest r' f
  end.

(** A new object, its fields not yet assigned. *)
Definition allocate : M ref :=
  fun h => (Ok (List.length h), (h ++ [Pick.new VUndefined None])%list).

(** [this.quidQuid] and [this.parentObjectKey], read. *)
Definition getQuidQuid (this : ref) : M value :=
  fun h =>
    match deref h this with
    | Some object => (Ok (Pick.quidQuid object), h)
    | None => (Err TypeError, h)
    end.

Definition getParentObjectKey (this : ref) : M (option string) :=
  fun h =>
    match deref h this with
    | Some object => (Ok (Pick.parentObjectKey object), h)
    | None => (Err TypeError, h)
    end.

(** [this.quidQuid = quidQuid] and [this.parentObjectKey = parentObjectKey]. *)
Definition setQuidQuid (this : ref) (quidQuid : value) : M unit :=
  fun h =>
    match deref h this with
    | Some _ =>
        (Ok tt, update h this (fun object => Pick.new quidQuid (Pick.parentObjectKey object)))
    | None => (Err TypeError, h)
    end.

Definition setParentObjectKey (this : ref) (parentObjectKey : option string) : M unit :=
  fun h =>
    match deref h this with
    | Some _ =>
        (Ok tt, update h this (fun object => Pick.new (Pick.quidQuid object) parentObjectKey))
    | None => (Err TypeError, h)
    end.

(** [new Quidquid(quidQuid, parentObjectKey)]: the constructor's two
    assignments, on a fresh object. *)
Definition constructor (quidQuid : value) (parentObjectKey : option string) : M ref :=
  do this <- allocate;
  do _ <- setQuidQuid this quidQuid;
  do _ <- setParentObjectKey this parentObjectKey;
  ret this.

Definition from (quidQuid : value) : M ref := constructor quidQuid None.

Definition pickFullkeyName (this : ref) (key : string) : M string :=
  do parentObjectKey <- getParentObjectKey this;
  match parentObjectKey with
  | None | Some EmptyString => ret key
  | Some parent => ret (parent ++ "." ++ key)
  end.

Definition newOf (value : property) (key : string) : M ref :=
  match value with
  | Value quidQuid => constructor quidQuid (Some key)
  | Function => throw TypeError
  end.

Definition mapNew (value : property) : M (list ref) :=
  match value with
  | Value (VArr elements) => mapM (fun quidQuid => constructor quidQuid None) elements
  | _ => throw TypeError
  end.

Definition someM {A : Type} (m : M A) : M (option A) :=
  do a <- m; ret (Some a).

Section Methods.
Context {zod : ZodMajor}.

Definition pickString (this : ref) (key : string) : M property :=
  do quidQuid <- getQuidQuid this;
  do value <- lift (getProp quidQuid key);
  do fullKeyName <- pickFullkeyName this key;
  if falsy value then throw (Error (fullKeyName ++ " must not be empty"))
  else
    let parseFailure := negb (safeParse ZString value) in
    if parseFailure then throw (Error (fullKeyName ++ " must be a string"))
    else ret value.

Definition pickStringOptional (this : ref) (key : string) : M property :=
  do quidQuid <- getQuidQuid this;
  do value <- lift (getProp quidQuid key);
  if falsy value then ret (Value VUndefined)
  else pickString this key.

Definition pickStringArray (this : ref) (key : option string) : M property :=
  match key with
  | None | Some EmptyString =>
      do quidQuid <- getQuidQuid this;
      let value : property := quidQuid in
      if looseEqUndefined value then throw (Error "body must not be empty")
      else
        let parseFailure := negb (safeParse (ZArray ZString) value) in
        if parseFailure then throw (Error "body must be an array of strings")
        else ret value
  | Some key =>
      do fullKeyName <- pickFullkeyName this key;
      do quidQuid <- getQuidQuid this;
      do value <- lift (getProp quidQuid key);
      if looseEqUndefined value then throw (Error (fullKeyName ++ " must not be empty"))
      else
        let parseFailure := negb (safeParse (ZArray ZString) value) in
        if parseFailure then throw (Error (fullKeyName ++ " must be an array of strings"))
        else ret value
  end.

Definition pickStringArrayOptional (this : ref) (key : string) : M property :=
  do quidQuid <- getQuidQuid this;
  do value <- lift (getProp quidQuid key);
  if looseEqUndefined value then ret (Value VUndefined)
  else pickStringArray this (Some key).

Definition pickNumber (this : ref) (key : string) : M property :=
  do fullKeyName <- pickFullkeyName this key;
  do quidQuid <- getQuidQuid this;
  do value <- lift (getProp quidQuid key);
  if looseEqUndefined value then throw (Error (fullKeyName ++ " must not be empty"))
  else
    let parseFailure := negb (safeParse ZNumber value) in
    if parseFailure then throw (Error (fullKeyName ++ " must be a number"))
    else ret value.

Definition pickNumberOptional (this : ref) (key : string) : M property :=
  do quidQuid <- getQuidQuid this;
  do value <- lift (getProp quidQuid key);
  if looseEqUndefined value then ret (Value VUndefined)
  else pickNumber this key.

Definition pickNumberArray (this : ref) (key : option string) : M property :=
  match key with
  | None | Some EmptyString =>
      do quidQuid <- getQuidQuid this;
      let value : property := quidQuid in
      if looseEqUndefined value then throw (Error "body must not be empty")
      else
        let parseFailure := negb (safeParse (ZArray ZNumber) value) in
        if parseFailure then throw (Error "body must be an array of numbers")
        else ret value
  | Some key =>
      do quidQuid <- getQuidQuid this;
      do value <- lift (getProp quidQuid key);
      do fullKeyName <- pickFullkeyName this key;
      if looseEqUndefined value then throw (Error (fullKeyName ++ " must not be empty"))
      else
        let parseFailure := negb (safeParse (ZArray ZNumber) value) in
        if parseFailure then throw (Error (fullKeyName ++ " must be an array of numbers"))
        else ret value
  end.

Definition pickNumberArrayOptional (this : ref) (key : string) : M property :=
  do quidQuid <- getQuidQuid this;
  do value <- lift (getProp quidQuid key);
  if looseEqUndefined value then ret (Value VUndefined)
  else pickNumberArray this (Some key).

Definition pickBoolean (this : ref) (key : string) : M property :=
  do fullKeyName <- pickFullkeyName this key;
  do quidQuid <- getQuidQuid this;
  do value <- lift (getProp quidQuid key);
  if looseEqUndefined value then throw (Error (fullKeyName ++ " must not be empty"))
  else
    let parseFailure := negb (safeParse ZBoolean value) in
    if parseFailure then throw (Error (fullKeyName ++ " must be a boolean"))
    else ret value.

Definition pickBooleanOptional (this : ref) (key : string) : M property :=
  do quidQuid <- getQuidQuid this;
  do value <- lift (getProp quidQuid key);
  if looseEqUndefined value then ret (Value VUndefined)
  else pickBoolean this key.

Definition pickObject (this : ref) (key : string) : M ref :=
  do fullKeyName <- pickFullkeyName this key;
  do quidQuid <- getQuidQuid this;
  do value <- lift (getProp quidQuid key);
  if looseEqUndefined value then throw (Error (fullKeyName ++ " must not be empty"))
  else
    let parseFailure := negb (safeParse ZObject value) in
    if parseFailure then throw (Error (fullKeyName ++ " must be an object"))
    else newOf value key.

Definition pickObjectOptional (this : ref) (key : string) : M (option ref) :=
  do quidQuid <- getQuidQuid this;
  do value <- lift (getProp quidQuid key);
  if looseEqUndefined value then ret None
  else someM (pickObject this key).

Definition pickObjectArray (this : ref) (key : option string) : M (list ref) :=
  match key with
  | None | Some EmptyString =>
      do quidQuid <- getQuidQuid this;
      let value : property := quidQuid in
      if looseEqUndefined value then throw (Error "body must not be empty")
      else
        let parseFailure := negb (safeParse (ZArray ZObject) value) in
        if parseFailure then throw (Error "body must be an array of objects")
        else mapNew value
  | Some key =>
      do fullKeyName <- pickFullkeyName this key;
      do quidQuid <- getQuidQuid this;
      do value <- lift (getProp quidQuid key);
      if looseEqUndefined value then throw (Error (fullKeyName ++ " must not be empty"))
      else
        let parseFailure := negb (safeParse (ZArray ZObject) value) in
        if parseFailure then throw (Error (fullKeyName ++ " must be an array of objects"))
        else mapNew value
  end.

Definition pickObjectArrayOptional (this : ref) (key : string) : M (option (list ref)) :=
  do quidQuid <- getQuidQuid this;
  do value <- lift (getProp quidQuid key);
  if looseEqUndefined value then ret None
  else someM (pickObjectArray this (Some key)).
End Methods.

(** What a method that hands back accessors leaves behind, given the
    children [r] the functional method computes: their references, and
    the heap with the children allocated in order behind the objects that
    were there; a failure leaves the heap as it was. *)
Definition allocated {A B : Type} (h : heap)
           (refs : B -> A) (objects : B -> list Pick.Quidquid)
           (r : result B) : result A * heap :=
  match r with
  | Ok b => (Ok (refs b), (h ++ objects b)%list)
  | Err e => (Err e, h)
  end.

(** *** Clients *)

Inductive call : Type :=
| PickString (key : string)
| PickStringOptional (key : string)
| PickStringArray (key : option string)
| PickStringArrayOptional (key : string)
| PickNumber (key : string)
| PickNumberOptional (key : string)
| PickNumberArray (key : option string)
| PickNumberArrayOptional (key : string)
| PickBoolean (key : string)
| PickBooleanOptional (key : string)
| PickObject (key : string)
| PickObjectOptional (key : string)
| PickObjectArray (key : option string)
| PickObjectArrayOptional (key : string).

(** What a call hands back: what it read, one accessor, or an array of
    them. *)
Inductive answer : Type :=
| Data (p : property)
| Accessor (r : ref)
| Accessors (rs : list ref).

Definition answerOptional {A : Type} (f : A -> answer) (o : option A) : answer :=
  match o with
  | Some a => f a
  | None => Data VUndefined
  end.

Definition answering {A : Type} (f : A -> answer) (m : M A) : M answer :=
  do a <- m; ret (f a).

Section Calls.
Context {zod : ZodMajor}.

Definition perform (this : ref) (c : call) : M answer :=
  match c with
  | PickString key => answering Data (pickString this key)
  | PickStringOptional key => answering Data (pickStringOptional this key)
  | PickStringArray key => answering Data (pickStringArray this key)
  | PickStringArrayOptional key => answering Data (pickStringArrayOptional this key)
  | PickNumber key => answering Data (pickNumber this key)
  | PickNumberOptional key => answering Data (pickNumberOptional this key)
  | PickNumberArray key => answering Data (pickNumberArray this key)
  | PickNumberArrayOptional key => answering Data (pickNumberArrayOptional this key)
  | PickBoolean key => answering Data (pickBoolean this key)
  | PickBooleanOptional key => answering Data (pickBooleanOptional this key)
  | PickObject key => answering Accessor (pickObject this key)
  | PickObjectOptional key =>
      answering (answerOptional Accessor) (pickObjectOptional this key)
  | PickObjectArray key => answering Accessors (pickObjectArray this key)
  | PickObjectArrayOptional key =>
      answering (answerOptional Accessors) (pickObjectArrayOptional this key)
  end.

(** One method call on the object at [this]. *)
Definition invoke (h : heap) (this : ref) (c : call) : result answer * heap :=
  perform this c h.

(** A client: any sequence of calls, each on any reference, whether the
    calls before it failed or not. *)
Fixpoint run (h : heap) (calls : list (ref * call)) : list (result answer) * heap :=
  match calls with
  | [] => ([], h)
  | (this, c) :: rest =>
      let (a, h1) := invoke h this c in
      let (answers, h2) := run h1 rest in
      (a :: answers, h2)
  end.
End Calls.
End Objects.

(** ** Error kinds

    The source raises plain [Error]s; the two kinds of failure are told
    apart by the shape of the message. *)

Definition MissingField (name : string) : exn :=
  Error (name ++ " must not be empty").

Definition InvalidType (name what : string) : exn :=
  Error (name ++ " must be " ++ what).

(** The seven descriptions the accessors use after ["must be"]. *)
Definition kinds : list string :=
  ["a string"; "a number"; "a boolean"; "an object";
   "an array of strings"; "an array of numbers"; "an array of objects"].

Definition isMissingField (e : exn) : Prop :=
  exists name, e = MissingField name.

Definition isInvalidType (e : exn) : Prop :=
  exists name what, In what kinds /\ e = InvalidType name what.

Fixpoint lastChar (s : string) : option ascii :=
  match s with
  | EmptyString => None
  | String c EmptyString => Some c
  | String _ rest => lastChar rest
  end.

(** [needle] occurs somewhere in [hay]. *)
Definition contains (needle hay : string) : bool :=
  match String.index 0 needle hay with
  | Some _ => true
  | None => false
  end.

(** [!key] for the optional argument of the array accessors: no key
    given, or the empty string. *)
Definition noKey (key : option string) : bool :=
  match key with
  | None | Some EmptyString => true
  | Some _ => false
  end.

(** The value a required array accessor looks at: the wrapped value when
    no key is given, the field otherwise. *)
Definition arrayRead (this : Pick.Quidquid) (key : option string) : result property :=
  match key with
  | None | Some EmptyString => Ok (Value (Pick.quidQuid this))
  | Some key => getProp (Pick.quidQuid this) key
  end.

(** The name a required array accessor's messages use for it. *)
Definition arrayName (this : Pick.Quidquid) (key : option string) : string :=
  match key with
  | None | Some EmptyString => "body"
  | Some key => Pick.pickFullkeyName this key
  end.

(** The correspondence between the objects of the two classes. *)
Definition toGet (q : Pick.Quidquid) : Get.Quidquid :=
  Get.new (Pick.quidQuid q) (Pick.parentObjectKey q).

Definition mapResult {A B : Type} (f : A -> B) (r : result A) : result B :=
  let! a := r in Ok (f a).

(** ** Calls as data

    To speak of "every method" at once: the failure, if any, of a call
    on an accessor, by method. *)

Definition failure {A : Type} (r : result A) : option exn :=
  match r with
  | Ok _ => None
  | Err e => Some e
  end.

Section FailureOf.
Context {zod : ZodMajor}.
Import Pick.

Definition failureOf (this : Quidquid) (c : Objects.call) : option exn :=
  match c with
  | Objects.PickString key => failure (pickString this key)
  | Objects.PickStringOptional key => failure (pickStringOptional this key)
  | Objects.PickStringArray key => failure (pickStringArray this key)
  | Objects.PickStringArrayOptional key => failure (pickStringArrayOptional this key)
  | Objects.PickNumber key => failure (pickNumber this key)
  | Objects.PickNumberOptional key => failure (pickNumberOptional this key)
  | Objects.PickNumberArray key => failure (pickNumberArray this key)
  | Objects.PickNumberArrayOptional key => failure (pickNumberArrayOptional this key)
  | Objects.PickBoolean key => failure (pickBoolean this key)
  | Objects.PickBooleanOptional key => failure (pickBooleanOptional this key)
  | Objects.PickObject key => failure (pickObject this key)
  | Objects.PickObjectOptional key => failure (pickObjectOptional this key)
  | Objects.PickObjectArray key => failure (pickObjectArray this key)
  | Objects.PickObjectArrayOptional key => failure (pickObjectArrayOptional this key)
  end.
End FailureOf.

(** The calls whose first step is the read [this.quidQuid[key]]: all but
    the required array accessors called with no key. *)
Definition readsField (c : Objects.call) : bool :=
  match c with
  | Objects.PickStringArray key
  | Objects.PickNumberArray key
  | Objects.PickObjectArray key => negb (noKey key)
  | _ => true
  end.

Definition isOptional (c : Objects.call) : bool :=
  match c with
  | Objects.PickStringOptional _
  | Objects.PickStringArrayOptional _
  | Objects.PickNumberOptional _
  | Objects.PickNumberArrayOptional _
  | Objects.PickBooleanOptional _
  | Objects.PickObjectOptional _
  | Objects.PickObjectArrayOptional _ => true
  | _ => false
  end.

(** A failure of one of the two kinds the accessors raise themselves. *)
Definition twoKinds (e : exn) : Prop := isMissingField e \/ isInvalidType e.

(** An object that is not an array: a plain object or one of the
    prototype objects. *)
Definition isObject (v : value) : Prop :=
  (exists fields, v = VObj fields) \/ (exists p, v = VProto p).

Definition wrapsObject (q : Pick.Quidquid) : Prop :=
  isObject (Pick.quidQuid q).

(** * Properties *)

Section ErrorKinds.

Lemma lastChar_append (s t : string) :
  t <> "" -> lastChar (s ++ t) = lastChar t.
Proof.
  intros Ht. induction s as [|c s IH]; [reflexivity|].
  cbn [append lastChar]. rewrite IH.
  destruct (s ++ t) eqn:E; [|reflexivity].
  destruct s; [cbn in E; congruence | discriminate].
Qed.

Lemma MissingField_lastChar name :
  forall m, MissingField name = Error m -> lastChar m = Some "y"%char.
Proof.
  intros m [= <-]. rewrite lastChar_append; [reflexivity | discriminate].
Qed.

Lemma InvalidType_lastChar name what :
  In what kinds ->
  forall m, InvalidType name what = Error m -> lastChar m <> Some "y"%char.
Proof.
  intros Hin m [= <-].
  cbn in Hin.
  repeat (destruct Hin as [<- | Hin];
          [rewrite lastChar_append; [cbn; congruence | discriminate] |]).
  contradiction.
Qed.

(** No failure is of both kinds. *)
Lemma MissingField_not_InvalidType e :
  isMissingField e -> ~ isInvalidType e.
Proof.
  intros [name ->] (name' & what & Hin & E).
  symmetry in E.
  apply (InvalidType_lastChar name' what Hin _ E).
  eapply MissingField_lastChar. reflexivity.
Qed.

Lemma TypeError_no_kind :
  ~ isMissingField TypeError /\ ~ isInvalidType TypeError.
Proof.
  split; [intros [n E] | intros (n & w & _ & E)]; discriminate.
Qed.

End ErrorKinds.

(** ** What the schemas accept *)

Section Schemas.
Context {zod : ZodMajor}.

Lemma safeParse_string (p : property) :
  safeParse ZString p = true <-> exists s, p = VStr s.
Proof.
  split; [destruct p as [[]|]; cbn; try discriminate; eauto | intros [s ->]; reflexivity].
Qed.

Lemma safeParse_boolean (p : property) :
  safeParse ZBoolean p = true <-> exists b, p = VBool b.
Proof.
  split; [destruct p as [[]|]; cbn; try discriminate; eauto | intros [s ->]; reflexivity].
Qed.

Lemma safeParse_object (p : property) :
  safeParse ZObject p = true <-> exists v, p = Value v /\ isObject v.
Proof.
  split.
  - destruct p as [[]|]; cbn; try discriminate; intros _;
      (eexists; split; [reflexivity|]); [left | right]; eauto.
  - intros (v & -> & [[fields ->] | [q ->]]); reflexivity.
Qed.

Lemma safeParse_plain_object fields : safeParse ZObject (VObj fields) = true.
Proof. reflexivity. Qed.

Lemma safeParse_function s : safeParse s Function = false.
Proof. now destruct s. Qed.

Lemma safeParse_number (p : property) :
  safeParse ZNumber p = true <-> exists n, p = VNum n /\ numberSuccess n = true.
Proof.
  split.
  - destruct p as [[]|]; cbn; try discriminate; eauto.
  - intros (n & -> & H). exact H.
Qed.

Lemma numberSuccess_not_nan n :
  numberSuccess n = true -> PrimFloat.is_nan n = false.
Proof.
  unfold numberSuccess. intros H.
  apply andb_true_iff in H as [H _]. now apply negb_true_iff in H.
Qed.

Lemma numberSuccess_finite n :
  PrimFloat.is_nan n = false -> PrimFloat.is_infinity n = false ->
  numberSuccess n = true.
Proof.
  unfold numberSuccess. intros -> ->. now destruct zod.
Qed.

Lemma safeParse_array s (p : property) :
  safeParse (ZArray s) p = true <->
  exists elements,
    p = VArr elements /\ Forall (fun x : value => safeParse s x = true) elements.
Proof.
  split.
  - destruct p as [[]|]; cbn; try discriminate. intros H.
    eexists; split; [reflexivity|].
    apply Forall_forall. now apply forallb_forall.
  - intros (l & -> & H). cbn. apply forallb_forall. now apply Forall_forall.
Qed.

Lemma safeParse_array_of_non_array s (v : value) :
  (forall elements, v <> VArr elements) -> safeParse (ZArray s) v = false.
Proof.
  intros H. destruct v; try reflexivity. now destruct (H elements).
Qed.

(** Nothing that passes a schema is [undefined] or [null]. *)
Lemma safeParse_present s (p : property) :
  safeParse s p = true -> looseEqUndefined p = false.
Proof.
  destruct s, p as [[]|]; cbn; congruence.
Qed.

Lemma looseEqUndefined_falsy (p : property) :
  looseEqUndefined p = true -> falsy p = true.
Proof.
  destruct p as [[]|]; cbn; congruence.
Qed.
End Schemas.

(** ** The accessors, case by case *)

Section PickCases.
Context {zod : ZodMajor}.
Import Pick.

Variables (this : Quidquid) (key : string) (v : property).
Hypothesis read : getProp (quidQuid this) key = Ok v.

Let fullKeyName := pickFullkeyName this key.

Lemma pickString_cases :
  pickString this key =
  if falsy v then Err (MissingField fullKeyName)
  else if safeParse ZString v then Ok v
       else Err (InvalidType fullKeyName "a string").
Proof.
  unfold pickString. rewrite read. cbn [bind].
  destruct (falsy v); [reflexivity|]. now destruct (safeParse ZString v).
Qed.

Lemma pickNumber_cases :
  pickNumber this key =
  if looseEqUndefined v then Err (MissingField fullKeyName)
  else if safeParse ZNumber v then Ok v
       else Err (InvalidType fullKeyName "a number").
Proof.
  unfold pickNumber. rewrite read. cbn [bind].
  destruct (looseEqUndefined v); [reflexivity|]. now destruct (safeParse ZNumber v).
Qed.

Lemma pickBoolean_cases :
  pickBoolean this key =
  if looseEqUndefined v then Err (MissingField fullKeyName)
  else if safeParse ZBoolean v then Ok v
       else Err (InvalidType fullKeyName "a boolean").
Proof.
  unfold pickBoolean. rewrite read. cbn [bind].
  destruct (looseEqUndefined v); [reflexivity|]. now destruct (safeParse ZBoolean v).
Qed.

Lemma pickObject_cases :
  pickObject this key =
  if looseEqUndefined v then Err (MissingField fullKeyName)
  else if safeParse ZObject v then newOf v key
       else Err (InvalidType fullKeyName "an object").
Proof.
  unfold pickObject. rewrite read. cbn [bind].
  destruct (looseEqUndefined v); [reflexivity|]. now destruct (safeParse ZObject v).
Qed.

Lemma pickStringOptional_cases :
  pickStringOptional this key =
  if falsy v then Ok (Value VUndefined) else pickString this key.
Proof. unfold pickStringOptional. now rewrite read. Qed.

Lemma pickNumberOptional_cases :
  pickNumberOptional this key =
  if looseEqUndefined v then Ok (Value VUndefined) else pickNumber this key.
Proof. unfold pickNumberOptional. now rewrite read. Qed.

Lemma pickBooleanOptional_cases :
  pickBooleanOptional this key =
  if looseEqUndefined v then Ok (Value VUndefined) else pickBoolean this key.
Proof. unfold pickBooleanOptional. now rewrite read. Qed.

Lemma pickObjectOptional_cases :
  pickObjectOptional this key =
  if looseEqUndefined v then Ok None else some (pickObject this key).
Proof. unfold pickObjectOptional. now rewrite read. Qed.

Lemma pickStringArrayOptional_cases :
  pickStringArrayOptional this key =
  if looseEqUndefined v then Ok (Value VUndefined) else pickStringArray this (Some key).
Proof. unfold pickStringArrayOptional. now rewrite read. Qed.

Lemma pickNumberArrayOptional_cases :
  pickNumberArrayOptional this key =
  if looseEqUndefined v then Ok (Value VUndefined) else pickNumberArray this (Some key).
Proof. unfold pickNumberArrayOptional. now rewrite read. Qed.

Lemma pickObjectArrayOptional_cases :
  pickObjectArrayOptional this key =
  if looseEqUndefined v then Ok None else some (pickObjectArray this (Some key)).
Proof. unfold pickObjectArrayOptional. now rewrite read. Qed.
End PickCases.

Section PickArrayCases.
Context {zod : ZodMajor}.
Import Pick.

Variables (this : Quidquid) (key : option string).

Lemma pickStringArray_cases :
  pickStringArray this key =
  let! v := arrayRead this key in
  if looseEqUndefined v then Err (MissingField (arrayName this key))
  else if safeParse (ZArray ZString) v then Ok v
       else Err (InvalidType (arrayName this key) "an array of strings").
Proof.
  unfold pickStringArray, arrayRead, arrayName.
  destruct key as [[|c k]|]; cbn [bind];
    try destruct (getProp (quidQuid this) (String c k)) as [v|e]; cbn [bind];
    try reflexivity;
    match goal with |- context [looseEqUndefined ?x] =>
      destruct (looseEqUndefined x); [reflexivity|];
      now destruct (safeParse (ZArray ZString) x) end.
Qed.

Lemma pickNumberArray_cases :
  pickNumberArray this key =
  let! v := arrayRead this key in
  if looseEqUndefined v then Err (MissingField (arrayName this key))
  else if safeParse (ZArray ZNumber) v then Ok v
       else Err (InvalidType (arrayName this key) "an array of numbers").
Proof.
  unfold pickNumberArray, arrayRead, arrayName.
  destruct key as [[|c k]|]; cbn [bind];
    try destruct (getProp (quidQuid this) (String c k)) as [v|e]; cbn [bind];
    try reflexivity;
    match goal with |- context [looseEqUndefined ?x] =>
      destruct (looseEqUndefined x); [reflexivity|];
      now destruct (safeParse (ZArray ZNumber) x) end.
Qed.

Lemma pickObjectArray_cases :
  pickObjectArray this key =
  let! v := arrayRead this key in
  if looseEqUndefined v then Err (MissingField (arrayName this key))
  else if safeParse (ZArray ZObject) v then mapNew v
       else Err (InvalidType (arrayName this key) "an array of objects").
Proof.
  unfold pickObjectArray, arrayRead, arrayName.
  destruct key as [[|c k]|]; cbn [bind];
    try destruct (getProp (quidQuid this) (String c k)) as [v|e]; cbn [bind];
    try reflexivity;
    match goal with |- context [looseEqUndefined ?x] =>
      destruct (looseEqUndefined x); [reflexivity|];
      now destruct (safeParse (ZArray ZObject) x) end.
Qed.
End PickArrayCases.

(** ** Property reads *)

Section Reads.

Lemma getProp_nothing (w : value) key :
  looseEqUndefined w = true -> getProp w key = Err TypeError.
Proof. destruct w; try discriminate; reflexivity. Qed.

Lemma getProp_present (w : value) key :
  looseEqUndefined w = false -> exists v, getProp w key = Ok v.
Proof.
  intros Hw. unfold getProp.
  destruct w; try discriminate Hw; destruct (own _ key); now eexists.
Qed.

Lemma getProp_error (w : value) key e :
  getProp w key = Err e -> e = TypeError /\ looseEqUndefined w = true.
Proof.
  unfold getProp.
  destruct w; try (now intros [= <-]); destruct (own _ key); discriminate.
Qed.

(** A read that succeeds is a read off something. *)
Lemma getProp_ok (w : value) key v :
  getProp w key = Ok v -> looseEqUndefined w = false.
Proof. destruct w; try discriminate; reflexivity. Qed.

(** No prototype has a member named by the empty string: only a plain
    object can hold a field of that name. *)
Lemma read_empty_key_present (w : value) v :
  getProp w "" = Ok v -> looseEqUndefined v = false ->
  exists fields, w = VObj fields.
Proof.
  destruct w as [| | | | | | |[]]; cbn; try discriminate;
    try (intros [= <-]; discriminate).
  intros _ _. now eexists.
Qed.

(** An own field of a plain object is what the read finds. *)
Lemma getProp_own_field fields key v :
  lookup key fields = Some v -> getProp (VObj fields) key = Ok (Value v).
Proof. intros H. unfold getProp. cbn. now rewrite H. Qed.

(** What a plain object inherits is [Object.prototype] or a function,
    never a string, a number or a boolean. *)
Lemma getProp_not_own fields key :
  lookup key fields = None ->
  getProp (VObj fields) key = Ok (Value (VProto ObjectPrototype)) \/
  getProp (VObj fields) key = Ok Function \/
  getProp (VObj fields) key = Ok (Value VUndefined).
Proof.
  intros H. unfold getProp. cbn [own]. rewrite H. unfold inherited.
  destruct (key =? "__proto__")%string; [now left|].
  destruct (existsb (named key) (chain (VObj fields))); [right; now left | right; now right].
Qed.
End Reads.

(** ** Nested objects and the path in messages *)

Section NestedPaths.
Context {zod : ZodMajor}.
Import Pick.

(** The child [pickObject] hands back wraps the field and records the
    bare [key] as its parent key, whatever the parent's own prefix. *)
Lemma pickObject_child this key child :
  pickObject this key = Ok child ->
  getProp (quidQuid this) key = Ok (quidQuid child) /\
  parentObjectKey child = Some key.
Proof.
  unfold pickObject.
  destruct (getProp (quidQuid this) key) as [v|e]; cbn [bind]; [|discriminate].
  destruct (looseEqUndefined v); [discriminate|].
  destruct (safeParse ZObject v) eqn:E; cbn; [|discriminate].
  apply safeParse_object in E as (w & -> & _). cbn.
  intros [= <-]. now split.
Qed.

(** Reading a field off an accessor that wraps [undefined] or [null]
    throws before any check is made: the failure is the runtime's, of
    neither kind. *)
Lemma read_of_nothing_throws this key :
  looseEqUndefined (quidQuid this) = true ->
  pickString this key = Err TypeError /\
  pickStringOptional this key = Err TypeError /\
  pickNumber this key = Err TypeError /\
  pickBoolean this key = Err TypeError /\
  pickObject this key = Err TypeError /\
  (key <> "" -> pickStringArray this (Some key) = Err TypeError).
Proof.
  unfold pickString, pickStringOptional, pickNumber, pickBoolean, pickObject,
    pickStringArray.
  destruct (quidQuid this); try discriminate; intros _;
    (repeat split; try reflexivity); (destruct key; [congruence | reflexivity]).
Qed.

(** At the root the recorded key is the full name of the field. *)
Lemma pickObject_child_of_root quidQuid key child :
  pickObject (from quidQuid) key = Ok child ->
  parentObjectKey child = Some (pickFullkeyName (from quidQuid) key).
Proof. intros H. now apply pickObject_child in H as [_ ->]. Qed.
End NestedPaths.

(** Reads at the names of inherited members, as the accessors see
    them: a method is present and of no kind; [__proto__] on a plain
    object is [Object.prototype], an object, whose own [__proto__] is
    [null]; on an array it is [Array.prototype], an empty array. *)
Lemma reads_of_inherited_members :
  Pick.pickString (zod := Zod3) (Pick.from (VObj [])) "toString"
    = Err (Error "toString must be a string") /\
  Pick.pickNumber (zod := Zod3) (Pick.from (VObj [])) "valueOf"
    = Err (Error "valueOf must be a number") /\
  Pick.pickStringOptional (zod := Zod3) (Pick.from (VObj [])) "constructor"
    = Err (Error "constructor must be a string") /\
  Pick.pickNumber (zod := Zod3) (Pick.from (VNum 5%float)) "toFixed"
    = Err (Error "toFixed must be a number") /\
  Pick.pickObject (zod := Zod3) (Pick.from (VObj [])) "__proto__"
    = Ok (Pick.new (VProto ObjectPrototype) (Some "__proto__")) /\
  Pick.pickObject (zod := Zod3) (Pick.new (VProto ObjectPrototype) (Some "__proto__"))
    "__proto__" = Err (Error "__proto__.__proto__ must not be empty") /\
  Pick.pickStringArray (zod := Zod3) (Pick.from (VArr [VStr "a"])) (Some "__proto__")
    = Ok (Value (VArr [])) /\
  Pick.pickObject (zod := Zod3) (Pick.from (VArr [])) "__proto__"
    = Err (Error "__proto__ must be an object") /\
  Pick.pickBoolean (zod := Zod3) (Pick.from (VObj [("toString", VBool true)])) "toString"
    = Ok (Value (VBool true)).
Proof. repeat split. Qed.

(** C1 (the code departs from the claim).  The claim: [pickObject(key)]
    returns a child whose path prefix is [fullName(key)], so that
    [pickObject("a")], then [pickObject("b")], then [pickString("c")]
    with ["c"] missing fails with a message containing ["a.b.c"].  The
    code passes [key] and not [fullKeyName] to the constructor: on
    [{a: {b: {}}}] the second child's prefix is ["b"] although the full
    name of its field is ["a.b"], and the failure reads
    ["b.c must not be empty"], in which ["a.b.c"] does not occur. *)
Theorem pickObject_nested_prefix_is_bare_key :
  forall zod : ZodMajor,
  exists a b : Pick.Quidquid,
    Pick.pickObject (Pick.from (VObj [("a", VObj [("b", VObj [])])])) "a" = Ok a /\
    Pick.pickObject a "b" = Ok b /\
    Pick.pickFullkeyName a "b" = "a.b" /\
    Pick.parentObjectKey b = Some "b" /\
    Pick.pickString b "c" = Err (Error "b.c must not be empty") /\
    contains "a.b.c" "b.c must not be empty" = false.
Proof.
  intros zod.
  exists (Pick.new (VObj [("b", VObj [])]) (Some "a")), (Pick.new (VObj []) (Some "b")).
  repeat split.
Qed.

(** ** Emptiness policy *)

Section Emptiness.
Context {zod : ZodMajor}.
Import Pick.


Lemma newOf_of_object (v : property) key :
  safeParse ZObject v = true ->
  exists w, v = Value w /\ newOf v key = Ok (new w (Some key)).
Proof.
  intros H. apply safeParse_object in H as (w & -> & _). now exists w.
Qed.

Lemma mapNew_of_array v :
  safeParse (ZArray ZObject) v = true ->
  exists elements, v = VArr elements /\ mapNew v = Ok (map from elements).
Proof.
  intros H. apply safeParse_array in H as (l & -> & _). now exists l.
Qed.
End Emptiness.

Section EmptinessPolicy.
Context {zod : ZodMajor}.
Import Pick.

Ltac kind := cbn; tauto.







End EmptinessPolicy.

(** ** Optional variants *)

Section OptionalVariants.
Context {zod : ZodMajor}.
Import Pick.

Lemma arrayRead_keyed this key :
  key <> "" ->
  arrayRead this (Some key) = getProp (quidQuid this) key /\
  arrayName this (Some key) = pickFullkeyName this key.
Proof. destruct key; [congruence | now split]. Qed.

(** With a present field, what a keyed array accessor looks at is never
    [undefined] or [null], and it is the field unless the key is empty. *)
Lemma arrayRead_present this key v :
  getProp (quidQuid this) key = Ok v -> looseEqUndefined v = false ->
  exists w, arrayRead this (Some key) = Ok w /\ looseEqUndefined w = false /\
            (forall s, safeParse (ZArray s) v = false -> safeParse (ZArray s) w = false).
Proof.
  intros read Hv. destruct key as [|c k].
  - destruct (read_empty_key_present _ _ read Hv) as [fields E].
    exists (Value (quidQuid this)). cbn. rewrite E. now repeat split.
  - exists v. now repeat split.
Qed.

Lemma optional_undefined_iff (opt req : result property) (absent : bool) :
  opt = (if absent then Ok (Value VUndefined) else req) ->
  (forall w, req = Ok w -> looseEqUndefined w = false) ->
  (opt = Ok VUndefined <-> absent = true).
Proof.
  intros -> Hreq. destruct absent; split; try easy.
  intros H. now apply Hreq in H.
Qed.

Lemma scalar_result_present (absent valid : bool) name what v w :
  (absent = false -> valid = true -> looseEqUndefined v = false) ->
  (if absent then Err (MissingField name)
   else if valid then Ok v else Err (InvalidType name what)) = Ok w ->
  looseEqUndefined w = false.
Proof.
  destruct absent; [discriminate|]. destruct valid; [|discriminate].
  intros H [= <-]. now apply H.
Qed.

Lemma array_result_present (r : result property) s name what w :
  (let! v := r in
   if looseEqUndefined v then Err (MissingField name)
   else if safeParse (ZArray s) v then Ok v else Err (InvalidType name what)) = Ok w ->
  looseEqUndefined w = false.
Proof.
  destruct r as [v|e]; cbn [bind]; [|discriminate].
  destruct (looseEqUndefined v) eqn:E; [discriminate|].
  destruct (safeParse (ZArray s) v); [|discriminate]. now intros [= <-].
Qed.

Lemma array_invalid (r : result property) s name what w :
  In what kinds ->
  r = Ok w -> looseEqUndefined w = false -> safeParse (ZArray s) w = false ->
  exists e,
    (let! v := r in
     if looseEqUndefined v then Err (MissingField name)
     else if safeParse (ZArray s) v then Ok v else Err (InvalidType name what)) = Err e /\
    isInvalidType e.
Proof.
  intros Hin -> Hw Hs. cbn [bind]. rewrite Hw, Hs.
  eexists; split; [reflexivity|]. now exists name, what.
Qed.

Ltac kind := cbn; tauto.

(** C3 (as amended).  Optional variants.  On an accessor whose wrapped
    value is not [undefined] or [null] every field reads as something,
    and for a field that reads as [v] each optional variant returns
    [undefined] if and only if the field is absent (falsy for strings,
    [undefined] or [null] otherwise); when it is present the outcome is
    the required variant's, so a present value that fails validation is
    still an InvalidType failure.  On an accessor that wraps [undefined]
    or [null] the read itself throws, and every optional variant is
    rejected with that TypeError. *)
Theorem optional_variants (this : Quidquid) (key : string) :
  (looseEqUndefined (quidQuid this) = true ->
   pickStringOptional this key = Err TypeError /\
   pickNumberOptional this key = Err TypeError /\
   pickBooleanOptional this key = Err TypeError /\
   pickObjectOptional this key = Err TypeError /\
   pickStringArrayOptional this key = Err TypeError /\
   pickNumberArrayOptional this key = Err TypeError /\
   pickObjectArrayOptional this key = Err TypeError) /\
  (looseEqUndefined (quidQuid this) = false ->
   exists v, getProp (quidQuid this) key = Ok v) /\
  forall v : property,
  getProp (quidQuid this) key = Ok v ->
  let name := pickFullkeyName this key in
  (* undefined exactly when absent *)
  ((pickStringOptional this key = Ok VUndefined <-> falsy v = true) /\
   (pickNumberOptional this key = Ok VUndefined <-> looseEqUndefined v = true) /\
   (pickBooleanOptional this key = Ok VUndefined <-> looseEqUndefined v = true) /\
   (pickObjectOptional this key = Ok None <-> looseEqUndefined v = true) /\
   (pickStringArrayOptional this key = Ok VUndefined <-> looseEqUndefined v = true) /\
   (pickNumberArrayOptional this key = Ok VUndefined <-> looseEqUndefined v = true) /\
   (pickObjectArrayOptional this key = Ok None <-> looseEqUndefined v = true)) /\
  (* present: the required variant's outcome *)
  ((falsy v = false -> pickStringOptional this key = pickString this key) /\
   (looseEqUndefined v = false ->
    pickNumberOptional this key = pickNumber this key /\
    pickBooleanOptional this key = pickBoolean this key /\
    pickObjectOptional this key = some (pickObject this key) /\
    pickStringArrayOptional this key = pickStringArray this (Some key) /\
    pickNumberArrayOptional this key = pickNumberArray this (Some key) /\
    pickObjectArrayOptional this key =
      some (pickObjectArray this (Some key)))) /\
  (* present and malformed: InvalidType *)
  ((falsy v = false -> safeParse ZString v = false ->
    pickStringOptional this key = Err (InvalidType name "a string")) /\
   (looseEqUndefined v = false -> safeParse ZNumber v = false ->
    pickNumberOptional this key = Err (InvalidType name "a number")) /\
   (looseEqUndefined v = false -> safeParse ZBoolean v = false ->
    pickBooleanOptional this key = Err (InvalidType name "a boolean")) /\
   (looseEqUndefined v = false -> safeParse ZObject v = false ->
    pickObjectOptional this key = Err (InvalidType name "an object")) /\
   (looseEqUndefined v = false -> safeParse (ZArray ZString) v = false ->
    (exists e, pickStringArrayOptional this key = Err e /\ isInvalidType e) /\
    (key <> "" -> pickStringArrayOptional this key =
                  Err (InvalidType name "an array of strings"))) /\
   (looseEqUndefined v = false -> safeParse (ZArray ZNumber) v = false ->
    (exists e, pickNumberArrayOptional this key = Err e /\ isInvalidType e) /\
    (key <> "" -> pickNumberArrayOptional this key =
                  Err (InvalidType name "an array of numbers"))) /\
   (looseEqUndefined v = false -> safeParse (ZArray ZObject) v = false ->
    (exists e, pickObjectArrayOptional this key = Err e /\ isInvalidType e) /\
    (key <> "" -> pickObjectArrayOptional this key =
                  Err (InvalidType name "an array of objects")))).
Proof.
  split; [|split; [apply getProp_present|]].
  { intros Hn.
    unfold pickStringOptional, pickNumberOptional, pickBooleanOptional,
      pickObjectOptional, pickStringArrayOptional, pickNumberArrayOptional,
      pickObjectArrayOptional.
    rewrite (getProp_nothing _ key Hn). now repeat split. }
  intros v read name. subst name.
  rewrite (pickStringOptional_cases _ _ _ read),
    (pickNumberOptional_cases _ _ _ read),
    (pickBooleanOptional_cases _ _ _ read),
    (pickObjectOptional_cases _ _ _ read),
    (pickStringArrayOptional_cases _ _ _ read),
    (pickNumberArrayOptional_cases _ _ _ read),
    (pickObjectArrayOptional_cases _ _ _ read).
  split; [|split].
  - repeat match goal with |- _ /\ _ => split end.
    + eapply optional_undefined_iff with (req := pickString this key);
        [reflexivity|].
      intros w. rewrite (pickString_cases _ _ _ read).
      apply scalar_result_present. intros _. apply safeParse_present.
    + eapply optional_undefined_iff; [reflexivity|].
      intros w. rewrite (pickNumber_cases _ _ _ read).
      apply scalar_result_present. intros _. apply safeParse_present.
    + eapply optional_undefined_iff; [reflexivity|].
      intros w. rewrite (pickBoolean_cases _ _ _ read).
      apply scalar_result_present. intros _. apply safeParse_present.
    + destruct (looseEqUndefined v); split; try easy.
      destruct (pickObject this key); discriminate.
    + eapply optional_undefined_iff; [reflexivity|].
      intros w. rewrite pickStringArray_cases. apply array_result_present.
    + eapply optional_undefined_iff; [reflexivity|].
      intros w. rewrite pickNumberArray_cases. apply array_result_present.
    + destruct (looseEqUndefined v); split; try easy.
      destruct (pickObjectArray this (Some key)); discriminate.
  - split; [now intros -> | now intros ->].
  - repeat match goal with |- _ /\ _ => split end.
    + intros Hp Hs. now rewrite (pickString_cases _ _ _ read), Hp, Hs.
    + intros Hp Hs. now rewrite (pickNumber_cases _ _ _ read), Hp, Hs.
    + intros Hp Hs. now rewrite (pickBoolean_cases _ _ _ read), Hp, Hs.
    + intros Hp Hs. now rewrite (pickObject_cases _ _ _ read), Hp, Hs.
    + intros Hp Hs. rewrite Hp, pickStringArray_cases. split.
      * destruct (arrayRead_present _ _ _ read Hp) as (w & Hr & Hw & Hbad).
        eapply array_invalid; [kind | exact Hr | exact Hw | now apply Hbad].
      * intros Hk. destruct (arrayRead_keyed this key Hk) as [-> ->].
        now rewrite read; cbn [bind]; rewrite Hp, Hs.
    + intros Hp Hs. rewrite Hp, pickNumberArray_cases. split.
      * destruct (arrayRead_present _ _ _ read Hp) as (w & Hr & Hw & Hbad).
        eapply array_invalid; [kind | exact Hr | exact Hw | now apply Hbad].
      * intros Hk. destruct (arrayRead_keyed this key Hk) as [-> ->].
        now rewrite read; cbn [bind]; rewrite Hp, Hs.
    + intros Hp Hs. rewrite Hp, pickObjectArray_cases. split.
      * destruct (arrayRead_present _ _ _ read Hp) as (w & Hr & Hw & Hbad).
        rewrite Hr. cbn [bind]. rewrite Hw, (Hbad _ Hs). cbn.
        eexists; split; [reflexivity|].
        eexists _, _; split; [|reflexivity]. kind.
      * intros Hk. destruct (arrayRead_keyed this key Hk) as [-> ->].
        now rewrite read; cbn [bind]; rewrite Hp, Hs.
Qed.
End OptionalVariants.

(** ** Required scalars *)

Section RequiredScalars.
Context {zod : ZodMajor}.
Import Pick.

(** C4 (as amended).  Required scalar contract.  For a field that
    reads as [v] (a value or, at a key naming an inherited method, a
    function), with [name] its full key name: [pickString] fails with
    MissingField ([name must not be empty]) when [v] is falsy (so for
    [undefined], [null] and [""], and also for [0], [NaN] and [false]),
    fails with InvalidType ([name must be a string]) when [v] is truthy
    and not a string, and returns [v] unchanged otherwise; [pickNumber]
    and [pickBoolean] fail with MissingField when [v] is [undefined] or
    [null], with InvalidType ([name must be a number], [name must be a
    boolean]) when [v] is present and fails validation, and return [v]
    unchanged otherwise.  Non-empty strings, booleans and finite numbers
    are values of the correct kind; [NaN] is not a valid number, and a
    function is of no kind. *)
Theorem required_scalar_contract (this : Quidquid) (key : string) (v : property) :
  getProp (quidQuid this) key = Ok v ->
  let name := pickFullkeyName this key in
  (* pickString *)
  ((falsy v = true -> pickString this key = Err (MissingField name)) /\
   (looseEqUndefined v = true \/ v = VStr "" ->
    pickString this key = Err (MissingField name)) /\
   (falsy v = false -> safeParse ZString v = false ->
    pickString this key = Err (InvalidType name "a string")) /\
   (falsy v = false -> safeParse ZString v = true -> pickString this key = Ok v) /\
   (forall s, s <> "" -> v = VStr s -> pickString this key = Ok v)) /\
  (* pickNumber *)
  ((looseEqUndefined v = true -> pickNumber this key = Err (MissingField name)) /\
   (looseEqUndefined v = false -> safeParse ZNumber v = false ->
    pickNumber this key = Err (InvalidType name "a number")) /\
   (safeParse ZNumber v = true -> pickNumber this key = Ok v) /\
   (forall n, PrimFloat.is_nan n = false -> PrimFloat.is_infinity n = false ->
              v = VNum n -> pickNumber this key = Ok v) /\
   (v = VNum PrimFloat.nan -> pickNumber this key = Err (InvalidType name "a number"))) /\
  (* pickBoolean *)
  ((looseEqUndefined v = true -> pickBoolean this key = Err (MissingField name)) /\
   (looseEqUndefined v = false -> safeParse ZBoolean v = false ->
    pickBoolean this key = Err (InvalidType name "a boolean")) /\
   (safeParse ZBoolean v = true -> pickBoolean this key = Ok v) /\
   (forall b, v = VBool b -> pickBoolean this key = Ok v)) /\
  (* a function *)
  (v = Function ->
   pickString this key = Err (InvalidType name "a string") /\
   pickNumber this key = Err (InvalidType name "a number") /\
   pickBoolean this key = Err (InvalidType name "a boolean")).
Proof.
  intros read name. subst name.
  rewrite (pickString_cases _ _ _ read), (pickNumber_cases _ _ _ read),
    (pickBoolean_cases _ _ _ read).
  repeat match goal with |- _ /\ _ => split end.
  - now intros ->.
  - intros [H | ->]; [now rewrite (looseEqUndefined_falsy _ H) | reflexivity].
  - now intros -> ->.
  - now intros -> ->.
  - intros s Hs ->. cbn. destruct s; [congruence | reflexivity].
  - now intros ->.
  - now intros -> ->.
  - intros H. now rewrite (safeParse_present _ _ H), H.
  - intros n Hnan Hinf ->. cbn. now rewrite (numberSuccess_finite _ Hnan Hinf).
  - now intros ->.
  - now intros ->.
  - now intros -> ->.
  - intros H. now rewrite (safeParse_present _ _ H), H.
  - now intros b ->.
  - now intros ->.
Qed.
End RequiredScalars.

(** C4, the claim as first stated fails: it counts only [undefined],
    [null] and [""] as an absent string field, and promises InvalidType
    for any other value of the wrong kind.  The field of [{k: 0}] is
    present in that sense and is no string, yet [pickString("k")] fails
    with [k must not be empty] and not with [k must be a string]. *)
Lemma pickString_zero_is_missing_not_invalid :
  getProp (Pick.quidQuid (Pick.from (VObj [("k", VNum 0%float)]))) "k"
    = Ok (VNum 0%float) /\
  looseEqUndefined (VNum 0%float) = false /\
  VNum 0%float <> VStr "" /\
  safeParse (zod := Zod3) ZString (VNum 0%float) = false /\
  Pick.pickString (zod := Zod3) (Pick.from (VObj [("k", VNum 0%float)])) "k"
    = Err (Error "k must not be empty") /\
  Pick.pickString (zod := Zod3) (Pick.from (VObj [("k", VNum 0%float)])) "k"
    <> Err (InvalidType "k" "a string") /\
  Pick.pickString (zod := Zod4) (Pick.from (VObj [("k", VNum 0%float)])) "k"
    = Err (Error "k must not be empty").
Proof. repeat split; cbn; discriminate. Qed.

Lemma required_scalar_contract_witness :
  Pick.pickString (zod := Zod3) (Pick.from (VObj [("k", VStr "hi"); ("n", VNum 2%float)])) "k"
    = Ok (VStr "hi") /\
  Pick.pickString (zod := Zod3) (Pick.from (VObj [("k", VStr "hi"); ("n", VNum 2%float)])) "n"
    = Err (Error "n must be a string") /\
  Pick.pickNumber (zod := Zod3) (Pick.from (VObj [("k", VStr "hi"); ("n", VNum 2%float)])) "n"
    = Ok (VNum 2%float) /\
  Pick.pickBoolean (zod := Zod3) (Pick.from (VObj [("k", VStr "hi"); ("n", VNum 2%float)])) "b"
    = Err (Error "b must not be empty") /\
  Pick.pickString (zod := Zod3) (Pick.from (VObj [("k", VStr "hi"); ("n", VNum 2%float)]))
    "toString" = Err (Error "toString must be a string").
Proof.
  pose (this := Pick.from (VObj [("k", VStr "hi"); ("n", VNum 2%float)])).
  destruct (required_scalar_contract (zod := Zod3) this "k" (VStr "hi") eq_refl)
    as (Hk & _).
  destruct (required_scalar_contract (zod := Zod3) this "n" (VNum 2%float) eq_refl)
    as (Hn & Hn' & _).
  destruct (required_scalar_contract (zod := Zod3) this "b" VUndefined eq_refl)
    as (_ & _ & Hb & _).
  destruct (required_scalar_contract (zod := Zod3) this "toString" Function eq_refl)
    as (_ & _ & _ & Hf).
  split; [|split; [|split; [|split]]].
  - apply Hk; reflexivity.
  - apply Hn; reflexivity.
  - apply Hn'; reflexivity.
  - apply Hb; reflexivity.
  - apply Hf; reflexivity.
Defined.

(** ** Arrays *)

Section Arrays.
Context {zod : ZodMajor}.
Import Pick.

Lemma noKey_arrayRead this key :
  noKey key = true ->
  arrayRead this key = Ok (Value (quidQuid this)) /\ arrayName this key = "body".
Proof. destruct key as [[|c k]|]; cbn; try discriminate; now split. Qed.

Lemma Forall_safeParse_string elements :
  Forall (fun x => exists s, x = VStr s) elements <->
  Forall (fun x : value => safeParse ZString x = true) elements.
Proof.
  split; intros H; (eapply Forall_impl; [|exact H]); cbn beta; intros x.
  - intros [s ->]. reflexivity.
  - intros Hx. apply safeParse_string in Hx as [s [= ->]]. now exists s.
Qed.

Lemma Forall_safeParse_object elements :
  Forall isObject elements <->
  Forall (fun x : value => safeParse ZObject x = true) elements.
Proof.
  split; intros H; (eapply Forall_impl; [|exact H]); cbn beta; intros x.
  - intros Hx. apply safeParse_object. now exists x.
  - intros Hx. now apply safeParse_object in Hx as (v & [= <-] & Hv).
Qed.

Lemma Forall_plain_objects elements :
  Forall (fun x => exists fields, x = VObj fields) elements ->
  Forall (fun x : value => safeParse ZObject x = true) elements.
Proof.
  intros H. eapply Forall_impl; [|exact H]. cbn beta. now intros x [fields ->].
Qed.

Lemma safeParse_array_false s elements :
  Exists (fun x : value => safeParse s x = false) elements ->
  safeParse (ZArray s) (VArr elements) = false.
Proof.
  intros H. destruct (safeParse (ZArray s) (VArr elements)) eqn:E; [|reflexivity].
  apply safeParse_array in E as (l & [= <-] & Hall).
  apply Exists_exists in H as (x & Hin & Hx).
  rewrite Forall_forall in Hall. specialize (Hall x Hin). congruence.
Qed.

(** C5.  Keyless array access.  Called with no key (or with the empty
    key, which [!key] treats alike), [pickStringArray] takes the
    accessor's own wrapped value as the array and names it [body] in its
    messages, whatever the accessor's path prefix: [undefined] or [null]
    fails with [body must not be empty], any other non-array and any
    array with a non-string element fails with
    [body must be an array of strings], and an array of strings is
    returned as it is; so [["a","b"]] gives [["a","b"]] and
    ["not-an-array"] gives the InvalidType failure. *)
Theorem keyless_string_array (this : Quidquid) (key : option string) :
  noKey key = true ->
  let body := quidQuid this in
  (looseEqUndefined body = true ->
   pickStringArray this key = Err (Error "body must not be empty")) /\
  (looseEqUndefined body = false -> (forall elements, body <> VArr elements) ->
   pickStringArray this key = Err (Error "body must be an array of strings")) /\
  (forall elements, body = VArr elements ->
     Exists (fun x => forall s, x <> VStr s) elements ->
     pickStringArray this key = Err (Error "body must be an array of strings")) /\
  (forall elements, body = VArr elements ->
     Forall (fun x => exists s, x = VStr s) elements ->
     pickStringArray this key = Ok body) /\
  (body = VArr [VStr "a"; VStr "b"] ->
   pickStringArray this key = Ok (VArr [VStr "a"; VStr "b"])) /\
  (body = VStr "not-an-array" ->
   pickStringArray this key = Err (Error "body must be an array of strings")).
Proof.
  intros Hkey body. subst body.
  destruct (noKey_arrayRead this key Hkey) as [Hr Hn].
  rewrite pickStringArray_cases, Hr, Hn. cbn [bind].
  repeat match goal with |- _ /\ _ => split end.
  - now intros ->.
  - intros -> Hna. now rewrite (safeParse_array_of_non_array _ _ Hna).
  - intros l -> Hex. cbn [looseEqUndefined]. rewrite safeParse_array_false; [reflexivity|].
    eapply Exists_impl; [|exact Hex]. cbn beta. intros x Hx.
    destruct (safeParse ZString x) eqn:E; [|reflexivity].
    apply safeParse_string in E as [s [= ->]]. now destruct (Hx s).
  - intros l -> Hall. cbn [looseEqUndefined].
    apply Forall_safeParse_string in Hall.
    assert (safeParse (ZArray ZString) (VArr l) = true) as ->; [|reflexivity].
    apply safeParse_array. now exists l.
  - now intros ->.
  - now intros ->.
Qed.

(** C6.  Keyless object arrays.  On an accessor wrapping an array of
    objects, [pickObjectArray] with no key returns one child per
    element, in order, each wrapping its own element and carrying no
    path prefix, whatever the parent's prefix: a child's full key names
    are the bare keys. *)
Theorem keyless_object_array_children
        (this : Quidquid) (key : option string) (elements : list value) :
  noKey key = true ->
  quidQuid this = VArr elements ->
  Forall (fun x => exists fields, x = VObj fields) elements ->
  exists children,
    pickObjectArray this key = Ok children /\
    List.length children = List.length elements /\
    (forall i element, nth_error elements i = Some element ->
                       nth_error children i = Some (new element None)) /\
    (forall child, In child children ->
                   parentObjectKey child = None /\
                   forall k, pickFullkeyName child k = k).
Proof.
  intros Hkey Hbody Hall.
  destruct (noKey_arrayRead this key Hkey) as [Hr Hn].
  exists (map (fun quidQuid => new quidQuid None) elements).
  repeat match goal with |- _ /\ _ => split end.
  - rewrite pickObjectArray_cases, Hr, Hn, Hbody. cbn [bind looseEqUndefined].
    apply Forall_plain_objects in Hall.
    assert (safeParse (ZArray ZObject) (VArr elements) = true) as ->; [|reflexivity].
    apply safeParse_array. now exists elements.
  - apply length_map.
  - intros i element Hi. now rewrite nth_error_map, Hi.
  - intros child H. apply in_map_iff in H as (x & <- & _). now split.
Qed.

(** C7.  Mixed-kind arrays are rejected.  On [{scores: [1,"x",3]}],
    [pickNumberArray("scores")] fails with
    [scores must be an array of numbers].  In general a required array
    accessor succeeds only on an array whose every element passes the
    element schema (strings; numbers other than NaN; objects), and an
    array with one element that fails it is an InvalidType failure.  The
    array is what the accessor reads: the field, own or inherited, or the
    wrapped value when no key is given. *)
Theorem mixed_kind_arrays_rejected :
  pickNumberArray
    (from (VObj [("scores", VArr [VNum 1%float; VStr "x"; VNum 3%float])]))
    (Some "scores")
  = Err (Error "scores must be an array of numbers") /\
  (forall this key r,
      pickStringArray this key = Ok r ->
      arrayRead this key = Ok r /\
      exists elements, r = VArr elements /\
                       Forall (fun x => exists s, x = VStr s) elements) /\
  (forall this key r,
      pickNumberArray this key = Ok r ->
      arrayRead this key = Ok r /\
      exists elements, r = VArr elements /\
                       Forall (fun x => exists n, x = VNum n /\ PrimFloat.is_nan n = false)
                              elements) /\
  (forall this key children,
      pickObjectArray this key = Ok children ->
      exists elements, arrayRead this key = Ok (Value (VArr elements)) /\
                       Forall isObject elements /\
                       children = map from elements) /\
  (forall this key elements,
      arrayRead this key = Ok (Value (VArr elements)) ->
      (Exists (fun x : value => safeParse ZString x = false) elements ->
       pickStringArray this key =
       Err (InvalidType (arrayName this key) "an array of strings")) /\
      (Exists (fun x : value => safeParse ZNumber x = false) elements ->
       pickNumberArray this key =
       Err (InvalidType (arrayName this key) "an array of numbers")) /\
      (Exists (fun x : value => safeParse ZObject x = false) elements ->
       pickObjectArray this key =
       Err (InvalidType (arrayName this key) "an array of objects"))).
Proof.
  split; [now destruct zod|].
  split; [|split; [|split]].
  - intros this key r. rewrite pickStringArray_cases.
    destruct (arrayRead this key) as [w|e]; cbn [bind]; [|discriminate].
    destruct (looseEqUndefined w); [discriminate|].
    destruct (safeParse (ZArray ZString) w) eqn:E; [|discriminate].
    intros [= <-]. split; [reflexivity|].
    apply safeParse_array in E as (l & -> & Hall).
    exists l. split; [reflexivity|]. now apply Forall_safeParse_string.
  - intros this key r. rewrite pickNumberArray_cases.
    destruct (arrayRead this key) as [w|e]; cbn [bind]; [|discriminate].
    destruct (looseEqUndefined w); [discriminate|].
    destruct (safeParse (ZArray ZNumber) w) eqn:E; [|discriminate].
    intros [= <-]. split; [reflexivity|].
    apply safeParse_array in E as (l & -> & Hall).
    exists l. split; [reflexivity|].
    eapply Forall_impl; [|exact Hall]. cbn beta. intros x Hx.
    apply safeParse_number in Hx as (n & [= ->] & Hn).
    exists n. split; [reflexivity | now apply numberSuccess_not_nan].
  - intros this key children. rewrite pickObjectArray_cases.
    destruct (arrayRead this key) as [w|e]; cbn [bind]; [|discriminate].
    destruct (looseEqUndefined w); [discriminate|].
    destruct (safeParse (ZArray ZObject) w) eqn:E; [|discriminate].
    apply safeParse_array in E as (l & -> & Hall). cbn.
    intros [= <-]. exists l.
    split; [reflexivity|]. split; [now apply Forall_safeParse_object | reflexivity].
  - intros this key elements Hr.
    rewrite pickStringArray_cases, pickNumberArray_cases, pickObjectArray_cases, Hr.
    cbn [bind looseEqUndefined].
    repeat split; intros Hex; now rewrite (safeParse_array_false _ _ Hex).
Qed.

(** The array a keyed accessor validates may be inherited: on an array,
    [__proto__] reads as [Array.prototype], an array with no elements,
    which every required array accessor accepts. *)
Lemma array_prototype_is_an_empty_array this elements :
  quidQuid this = VArr elements ->
  pickStringArray this (Some "__proto__") = Ok (Value (VArr [])) /\
  pickNumberArray this (Some "__proto__") = Ok (Value (VArr [])) /\
  pickObjectArray this (Some "__proto__") = Ok [].
Proof.
  intros H. unfold pickStringArray, pickNumberArray, pickObjectArray, getProp.
  rewrite H. now repeat split.
Qed.
End Arrays.

Lemma keyless_string_array_witness :
  Pick.pickStringArray (zod := Zod3) (Pick.from (VArr [VStr "a"; VStr "b"])) None
    = Ok (VArr [VStr "a"; VStr "b"]) /\
  Pick.pickStringArray (zod := Zod3) (Pick.from (VStr "not-an-array")) None
    = Err (Error "body must be an array of strings") /\
  Pick.pickStringArray (zod := Zod3) (Pick.new VNull (Some "parent")) None
    = Err (Error "body must not be empty").
Proof.
  split; [|split].
  - apply (keyless_string_array (zod := Zod3)
             (Pick.from (VArr [VStr "a"; VStr "b"])) None eq_refl).
    reflexivity.
  - apply (keyless_string_array (zod := Zod3)
             (Pick.from (VStr "not-an-array")) None eq_refl).
    reflexivity.
  - apply (keyless_string_array (zod := Zod3)
             (Pick.new VNull (Some "parent")) None eq_refl).
    reflexivity.
Defined.

(** The spec's example for C6: [[{x:1},{x:2}]] yields two children whose
    [pickNumber("x")] are [1] and [2], neither with a path prefix. *)
Lemma keyless_object_array_children_witness :
  exists c1 c2 : Pick.Quidquid,
    Pick.pickObjectArray (zod := Zod3)
      (Pick.from (VArr [VObj [("x", VNum 1%float)]; VObj [("x", VNum 2%float)]])) None
      = Ok [c1; c2] /\
    Pick.pickNumber (zod := Zod3) c1 "x" = Ok (VNum 1%float) /\
    Pick.pickNumber (zod := Zod3) c2 "x" = Ok (VNum 2%float) /\
    Pick.pickNumber (zod := Zod3) c1 "y" = Err (Error "y must not be empty") /\
    Pick.parentObjectKey c1 = None /\ Pick.parentObjectKey c2 = None.
Proof.
  destruct (keyless_object_array_children (zod := Zod3)
              (Pick.from (VArr [VObj [("x", VNum 1%float)]; VObj [("x", VNum 2%float)]]))
              None
              [VObj [("x", VNum 1%float)]; VObj [("x", VNum 2%float)]]
              eq_refl eq_refl)
    as (children & Hcall & Hlen & Hnth & Hprefix).
  - repeat constructor; eexists; reflexivity.
  - destruct children as [|c1 [|c2 [|c3 rest]]]; try discriminate Hlen.
    exists c1, c2.
    pose proof (Hnth 0 _ eq_refl) as H1. pose proof (Hnth 1 _ eq_refl) as H2.
    cbn in H1, H2. injection H1 as ->. injection H2 as ->.
    split; [exact Hcall|]. repeat split.
Defined.

(** ** The two classes *)

Section TwoClasses.
Context {zod : ZodMajor}.

Lemma toGet_surjective (g : Get.Quidquid) : exists q, toGet q = g.
Proof. destruct g as [v p]. now exists (Pick.new v p). Qed.

Lemma toGet_injective (q q' : Pick.Quidquid) : toGet q = toGet q' -> q = q'.
Proof. destruct q, q'. unfold toGet. cbn. now intros [= -> ->]. Qed.

Lemma getFullkeyName_toGet q key :
  Get.getFullkeyName (toGet q) key = Pick.pickFullkeyName q key.
Proof. reflexivity. Qed.

Lemma mapNew_toGet v :
  Get.mapNew v = mapResult (map toGet) (Pick.mapNew v).
Proof. destruct v as [[]|]; cbn; try reflexivity. now rewrite map_map. Qed.

Lemma newOf_toGet v key :
  Get.newOf v key = mapResult toGet (Pick.newOf v key).
Proof. now destruct v. Qed.

(** Splits on every test the two bodies make, in step. *)
Ltac in_step :=
  repeat match goal with
    | |- context [getProp ?w ?k] => destruct (getProp w k); cbn [bind mapResult]
    | |- context [if ?b then _ else _] => destruct b; cbn [bind mapResult negb]
    | |- context [Get.mapNew ?v] => rewrite (mapNew_toGet v)
    | |- context [Get.newOf ?v ?k] => rewrite (newOf_toGet v k)
    | |- context [Pick.newOf ?v ?k] => destruct (Pick.newOf v k); cbn [bind mapResult]
    | |- context [Pick.mapNew ?v] => destruct (Pick.mapNew v); cbn [bind mapResult]
    end;
  try reflexivity.

(** C8.  The [pick*] class and the [get*] class are the same design:
    the objects of the two correspond one to one ([toGet], which keeps
    the wrapped value and the parent key), the two [from] build
    corresponding roots, and on corresponding objects every [get*]
    method gives the result of the [pick*] method of the same name,
    value for value and message for message, with the accessors they
    hand back corresponding again. *)
Theorem pick_get_equivalent (q : Pick.Quidquid) (key : string) (okey : option string) :
  (forall v, Get.from v = toGet (Pick.from v)) /\
  (forall g, exists q', toGet q' = g) /\
  Get.getString (toGet q) key = Pick.pickString q key /\
  Get.getStringOptional (toGet q) key = Pick.pickStringOptional q key /\
  Get.getStringArray (toGet q) okey = Pick.pickStringArray q okey /\
  Get.getStringArrayOptional (toGet q) key = Pick.pickStringArrayOptional q key /\
  Get.getNumber (toGet q) key = Pick.pickNumber q key /\
  Get.getNumberOptional (toGet q) key = Pick.pickNumberOptional q key /\
  Get.getNumberArray (toGet q) okey = Pick.pickNumberArray q okey /\
  Get.getNumberArrayOptional (toGet q) key = Pick.pickNumberArrayOptional q key /\
  Get.getBoolean (toGet q) key = Pick.pickBoolean q key /\
  Get.getBooleanOptional (toGet q) key = Pick.pickBooleanOptional q key /\
  Get.getObject (toGet q) key = mapResult toGet (Pick.pickObject q key) /\
  Get.getObjectOptional (toGet q) key =
    mapResult (option_map toGet) (Pick.pickObjectOptional q key) /\
  Get.getObjectArray (toGet q) okey =
    mapResult (map toGet) (Pick.pickObjectArray q okey) /\
  Get.getObjectArrayOptional (toGet q) key =
    mapResult (option_map (map toGet)) (Pick.pickObjectArrayOptional q key).
Proof.
  split; [reflexivity|]. split; [exact toGet_surjective|].
  destruct q as [w p].
  repeat match goal with |- _ /\ _ => split end.
  - unfold Get.getString, Pick.pickString. cbn. in_step.
  - unfold Get.getStringOptional, Pick.pickStringOptional,
      Get.getString, Pick.pickString. cbn. in_step.
  - unfold Get.getStringArray, Pick.pickStringArray.
    destruct okey as [[|c k]|]; cbn; in_step.
  - unfold Get.getStringArrayOptional, Pick.pickStringArrayOptional,
      Get.getStringArray, Pick.pickStringArray.
    destruct key as [|c k]; cbn; in_step.
  - unfold Get.getNumber, Pick.pickNumber. cbn. in_step.
  - unfold Get.getNumberOptional, Pick.pickNumberOptional,
      Get.getNumber, Pick.pickNumber. cbn. in_step.
  - unfold Get.getNumberArray, Pick.pickNumberArray.
    destruct okey as [[|c k]|]; cbn; in_step.
  - unfold Get.getNumberArrayOptional, Pick.pickNumberArrayOptional,
      Get.getNumberArray, Pick.pickNumberArray.
    destruct key as [|c k]; cbn; in_step.
  - unfold Get.getBoolean, Pick.pickBoolean. cbn. in_step.
  - unfold Get.getBooleanOptional, Pick.pickBooleanOptional,
      Get.getBoolean, Pick.pickBoolean. cbn. in_step.
  - unfold Get.getObject, Pick.pickObject. cbn. in_step.
  - unfold Get.getObjectOptional, Pick.pickObjectOptional,
      Get.getObject, Pick.pickObject. cbn. in_step.
  - unfold Get.getObjectArray, Pick.pickObjectArray.
    destruct okey as [[|c k]|]; cbn; in_step; exact (mapNew_toGet (Value w)).
  - unfold Get.getObjectArrayOptional, Pick.pickObjectArrayOptional,
      Get.getObjectArray, Pick.pickObjectArray.
    destruct key as [|c k]; cbn; in_step.
    destruct w; cbn; try reflexivity. now rewrite map_map.
Qed.
End TwoClasses.

(** ** Immutability *)

Section Frame.
Context {zod : ZodMajor}.
Import Objects.

Lemma extends_refl h : extends h h.
Proof. now intros r o. Qed.

Lemma extends_trans h1 h2 h3 : extends h1 h2 -> extends h2 h3 -> extends h1 h3.
Proof. intros H12 H23 r o H. now apply H23, H12. Qed.

Lemma extends_app h more : extends h (h ++ more)%list.
Proof.
  intros r o H. unfold deref in *.
  rewrite nth_error_app1; [exact H|]. apply nth_error_Some. congruence.
Qed.

Lemma deref_fresh h object :
  deref h (List.length h) = None /\
  deref (h ++ [object])%list (List.length h) = Some object.
Proof.
  unfold deref. split.
  - apply nth_error_None. lia.
  - rewrite nth_error_app2, Nat.sub_diag; [reflexivity | lia].
Qed.

(** An assignment changes the object it is made on and no other. *)
Lemma update_other h r f r' :
  r' <> r -> deref (update h r f) r' = deref h r'.
Proof.
  unfold deref. revert r r'.
  induction h as [|o h IH]; intros [|r] [|r'] Hne; cbn; try reflexivity;
    try congruence.
  apply IH. congruence.
Qed.

Lemma update_fresh h object f :
  update (h ++ [object])%list (List.length h) f = (h ++ [f object])%list.
Proof. induction h as [|o h IH]; cbn; [reflexivity | now rewrite IH]. Qed.

(** The constructor: a fresh object, assigned twice; nothing else is
    touched. *)
Lemma constructor_new quidQuid parentObjectKey h :
  constructor quidQuid parentObjectKey h
  = (Ok (List.length h), (h ++ [Pick.new quidQuid parentObjectKey])%list).
Proof.
  unfold constructor, bindM, allocate, setQuidQuid, setParentObjectKey, ret.
  destruct (deref_fresh h (Pick.new VUndefined None)) as [_ ->].
  rewrite update_fresh. cbn [Pick.parentObjectKey].
  destruct (deref_fresh h (Pick.new quidQuid None)) as [_ ->].
  now rewrite update_fresh.
Qed.

Lemma mapM_constructor elements : forall h,
  mapM (fun quidQuid => constructor quidQuid None) elements h
  = (Ok (seq (List.length h) (List.length elements)),
     (h ++ map (fun quidQuid => Pick.new quidQuid None) elements)%list).
Proof.
  induction elements as [|x rest IH]; intros h; cbn [mapM].
  - unfold ret. cbn. now rewrite app_nil_r.
  - unfold bindM at 1. rewrite constructor_new.
    unfold bindM at 1. rewrite IH. unfold ret. cbn [map List.length seq].
    rewrite length_app, <- app_assoc. cbn [List.length app].
    now rewrite Nat.add_1_r.
Qed.

(** *** The frame, program by program *)

Lemma frame_ret {A} (a : A) : frame (ret a).
Proof. intros h. apply extends_refl. Qed.

Lemma frame_throw {A} (e : exn) : frame (@throw A e).
Proof. intros h. apply extends_refl. Qed.

Lemma frame_lift {A} (r : result A) : frame (lift r).
Proof. intros h. apply extends_refl. Qed.

Lemma frame_bind {A B} (m : M A) (k : A -> M B) :
  frame m -> (forall a, frame (k a)) -> frame (do a <- m; k a).
Proof.
  intros Hm Hk h. unfold bindM. specialize (Hm h).
  destruct (m h) as [[a|e] h1]; cbn [snd] in *; [|exact Hm].
  eapply extends_trans; [exact Hm | apply Hk].
Qed.

Lemma frame_getQuidQuid this : frame (getQuidQuid this).
Proof.
  intros h. unfold getQuidQuid. destruct (deref h this); apply extends_refl.
Qed.

Lemma frame_getParentObjectKey this : frame (getParentObjectKey this).
Proof.
  intros h. unfold getParentObjectKey. destruct (deref h this); apply extends_refl.
Qed.

Lemma frame_constructor quidQuid parentObjectKey :
  frame (constructor quidQuid parentObjectKey).
Proof. intros h. rewrite constructor_new. apply extends_app. Qed.

Lemma frame_mapM {A B} (f : A -> M B) l :
  (forall a, frame (f a)) -> frame (mapM f l).
Proof.
  intros Hf. induction l as [|a rest IH]; cbn [mapM].
  - apply frame_ret.
  - apply frame_bind; [apply Hf|]. intros b.
    apply frame_bind; [exact IH|]. intros bs. apply frame_ret.
Qed.

(** An assignment to a field of an object that is already there does
    not keep the frame: the property is one of the programs, not of the
    heap. *)
Lemma assignment_breaks_frame : ~ frame (setQuidQuid 0 VNull).
Proof.
  intros H. specialize (H [Pick.new VUndefined None] 0 _ eq_refl). discriminate H.
Qed.

Lemma frame_someM {A} (m : M A) : frame m -> frame (someM m).
Proof. intros H. unfold someM. apply frame_bind; [exact H|]. intros a. apply frame_ret. Qed.

Lemma frame_answering {A} (f : A -> answer) (m : M A) : frame m -> frame (answering f m).
Proof.
  intros H. unfold answering. apply frame_bind; [exact H|]. intros a. apply frame_ret.
Qed.

Create HintDb frames discriminated.

Ltac frame_step :=
  cbv zeta;
  first
    [ solve [auto with frames nocore]
    | apply frame_ret | apply frame_throw | apply frame_lift
    | apply frame_getQuidQuid | apply frame_getParentObjectKey
    | apply frame_constructor
    | apply frame_mapM; intros
    | apply frame_someM
    | apply frame_bind; [|intros]
    | match goal with
      | |- frame (if ?b then _ else _) => destruct b
      | |- frame (match ?x with _ => _ end) => destruct x
      end ].

Ltac frames := repeat frame_step.

Lemma frame_pickFullkeyName this key : frame (pickFullkeyName this key).
Proof. unfold pickFullkeyName. frames. Qed.
#[local] Hint Resolve frame_pickFullkeyName : frames.

Lemma frame_newOf value key : frame (newOf value key).
Proof. unfold newOf. frames. Qed.
#[local] Hint Resolve frame_newOf : frames.

Lemma frame_mapNew value : frame (mapNew value).
Proof. unfold mapNew. frames. Qed.
#[local] Hint Resolve frame_mapNew : frames.

Lemma frame_pickString this key : frame (pickString this key).
Proof. unfold pickString. frames. Qed.
#[local] Hint Resolve frame_pickString : frames.

Lemma frame_pickStringArray this key : frame (pickStringArray this key).
Proof. unfold pickStringArray. frames. Qed.
#[local] Hint Resolve frame_pickStringArray : frames.

Lemma frame_pickNumber this key : frame (pickNumber this key).
Proof. unfold pickNumber. frames. Qed.
#[local] Hint Resolve frame_pickNumber : frames.

Lemma frame_pickNumberArray this key : frame (pickNumberArray this key).
Proof. unfold pickNumberArray. frames. Qed.
#[local] Hint Resolve frame_pickNumberArray : frames.

Lemma frame_pickBoolean this key : frame (pickBoolean this key).
Proof. unfold pickBoolean. frames. Qed.
#[local] Hint Resolve frame_pickBoolean : frames.

Lemma frame_pickObject this key : frame (pickObject this key).
Proof. unfold pickObject. frames. Qed.
#[local] Hint Resolve frame_pickObject : frames.

Lemma frame_pickObjectArray this key : frame (pickObjectArray this key).
Proof. unfold pickObjectArray. frames. Qed.
#[local] Hint Resolve frame_pickObjectArray : frames.

Lemma frame_pickStringOptional this key : frame (pickStringOptional this key).
Proof. unfold pickStringOptional. frames. Qed.

Lemma frame_pickStringArrayOptional this key : frame (pickStringArrayOptional this key).
Proof. unfold pickStringArrayOptional. frames. Qed.

Lemma frame_pickNumberOptional this key : frame (pickNumberOptional this key).
Proof. unfold pickNumberOptional. frames. Qed.

Lemma frame_pickNumberArrayOptional this key : frame (pickNumberArrayOptional this key).
Proof. unfold pickNumberArrayOptional. frames. Qed.

Lemma frame_pickBooleanOptional this key : frame (pickBooleanOptional this key).
Proof. unfold pickBooleanOptional. frames. Qed.

Lemma frame_pickObjectOptional this key : frame (pickObjectOptional this key).
Proof. unfold pickObjectOptional. frames. Qed.

Lemma frame_pickObjectArrayOptional this key : frame (pickObjectArrayOptional this key).
Proof. unfold pickObjectArrayOptional. frames. Qed.

Lemma frame_perform this c : frame (perform this c).
Proof.
  destruct c; cbn [perform]; apply frame_answering;
    auto using frame_pickString, frame_pickStringOptional, frame_pickStringArray,
      frame_pickStringArrayOptional, frame_pickNumber, frame_pickNumberOptional,
      frame_pickNumberArray, frame_pickNumberArrayOptional, frame_pickBoolean,
      frame_pickBooleanOptional, frame_pickObject, frame_pickObjectOptional,
      frame_pickObjectArray, frame_pickObjectArrayOptional.
Qed.

Lemma run_extends calls : forall h, extends h (snd (run h calls)).
Proof.
  induction calls as [|[this c] rest IH]; intros h; cbn [run].
  - apply extends_refl.
  - pose proof (frame_perform this c h) as Hi. unfold invoke.
    destruct (perform this c h) as [a h1]. cbn [snd] in Hi.
    specialize (IH h1). destruct (run h1 rest) as [answers h2]. cbn [snd] in *.
    eapply extends_trans; eassumption.
Qed.

(** *** The stateful methods compute what the functional ones do *)

Section At.
Variables (h : heap) (this : ref) (object : Pick.Quidquid).
Hypothesis at_this : deref h this = Some object.

Lemma getQuidQuid_at : getQuidQuid this h = (Ok (Pick.quidQuid object), h).
Proof. unfold getQuidQuid. now rewrite at_this. Qed.

Lemma pickFullkeyName_at key :
  pickFullkeyName this key h = (Ok (Pick.pickFullkeyName object key), h).
Proof.
  unfold pickFullkeyName, bindM, getParentObjectKey, Pick.pickFullkeyName.
  rewrite at_this. now destruct (Pick.parentObjectKey object) as [[|c p]|].
Qed.

Ltac at_this :=
  unfold bindM, lift, throw, ret;
  repeat first
    [ rewrite getQuidQuid_at
    | rewrite pickFullkeyName_at
    | progress cbn [bind negb]
    | match goal with
      | |- context [getProp ?w ?k] => destruct (getProp w k)
      | |- context [if ?b then _ else _] => destruct b
      end ];
  try reflexivity.

Lemma pickString_at key :
  pickString this key h = (Pick.pickString object key, h).
Proof. unfold pickString, Pick.pickString. at_this. Qed.

Lemma pickNumber_at key :
  pickNumber this key h = (Pick.pickNumber object key, h).
Proof. unfold pickNumber, Pick.pickNumber. at_this. Qed.

Lemma pickBoolean_at key :
  pickBoolean this key h = (Pick.pickBoolean object key, h).
Proof. unfold pickBoolean, Pick.pickBoolean. at_this. Qed.

Lemma pickStringArray_at key :
  pickStringArray this key h = (Pick.pickStringArray object key, h).
Proof.
  unfold pickStringArray, Pick.pickStringArray.
  destruct key as [[|c k]|]; cbv zeta; at_this.
Qed.

Lemma pickNumberArray_at key :
  pickNumberArray this key h = (Pick.pickNumberArray object key, h).
Proof.
  unfold pickNumberArray, Pick.pickNumberArray.
  destruct key as [[|c k]|]; cbv zeta; at_this.
Qed.

Lemma pickStringOptional_at key :
  pickStringOptional this key h = (Pick.pickStringOptional object key, h).
Proof.
  unfold pickStringOptional, Pick.pickStringOptional. at_this. apply pickString_at.
Qed.

Lemma pickNumberOptional_at key :
  pickNumberOptional this key h = (Pick.pickNumberOptional object key, h).
Proof.
  unfold pickNumberOptional, Pick.pickNumberOptional. at_this. apply pickNumber_at.
Qed.

Lemma pickBooleanOptional_at key :
  pickBooleanOptional this key h = (Pick.pickBooleanOptional object key, h).
Proof.
  unfold pickBooleanOptional, Pick.pickBooleanOptional. at_this. apply pickBoolean_at.
Qed.

Lemma pickStringArrayOptional_at key :
  pickStringArrayOptional this key h = (Pick.pickStringArrayOptional object key, h).
Proof.
  unfold pickStringArrayOptional, Pick.pickStringArrayOptional. at_this.
  apply pickStringArray_at.
Qed.

Lemma pickNumberArrayOptional_at key :
  pickNumberArrayOptional this key h = (Pick.pickNumberArrayOptional object key, h).
Proof.
  unfold pickNumberArrayOptional, Pick.pickNumberArrayOptional. at_this.
  apply pickNumberArray_at.
Qed.

Lemma newOf_at value key :
  newOf value key h
  = allocated h (fun _ => List.length h) (fun child => [child]) (Pick.newOf value key).
Proof. destruct value; cbn; [apply constructor_new | reflexivity]. Qed.

Lemma mapNew_at value :
  mapNew value h
  = allocated h (fun children => seq (List.length h) (List.length children))
      (fun children => children) (Pick.mapNew value).
Proof.
  destruct value as [[]|]; cbn; try reflexivity.
  rewrite mapM_constructor. now rewrite length_map.
Qed.

Lemma pickObject_at key :
  pickObject this key h
  = allocated h (fun _ => List.length h) (fun child => [child])
      (Pick.pickObject object key).
Proof.
  unfold pickObject, Pick.pickObject. at_this. apply newOf_at.
Qed.

Lemma pickObjectArray_at key :
  pickObjectArray this key h
  = allocated h (fun children => seq (List.length h) (List.length children))
      (fun children => children) (Pick.pickObjectArray object key).
Proof.
  unfold pickObjectArray, Pick.pickObjectArray.
  destruct key as [[|c k]|]; cbv zeta; at_this; apply mapNew_at.
Qed.

Lemma pickObjectOptional_at key :
  pickObjectOptional this key h
  = allocated h (option_map (fun _ => List.length h))
      (fun child => match child with Some child => [child] | None => [] end)
      (Pick.pickObjectOptional object key).
Proof.
  unfold pickObjectOptional, Pick.pickObjectOptional. at_this.
  - cbn. now rewrite app_nil_r.
  - unfold someM, bindM. rewrite pickObject_at.
    now destruct (Pick.pickObject object key).
Qed.

Lemma pickObjectArrayOptional_at key :
  pickObjectArrayOptional this key h
  = allocated h (option_map (fun children => seq (List.length h) (List.length children)))
      (fun children => match children with Some children => children | None => [] end)
      (Pick.pickObjectArrayOptional object key).
Proof.
  unfold pickObjectArrayOptional, Pick.pickObjectArrayOptional. at_this.
  - cbn. now rewrite app_nil_r.
  - unfold someM, bindM. rewrite pickObjectArray_at.
    now destruct (Pick.pickObjectArray object (Some key)).
Qed.
End At.

Lemma perform_nowhere h this c :
  deref h this = None -> perform this c h = (Err TypeError, h).
Proof.
  intros Hn.
  destruct c as [k|k|[[|a k]|]|k|k|k|[[|a k]|]|k|k|k|k|k|[[|a k]|]|k];
    cbn [perform];
    unfold answering, pickString, pickStringOptional, pickStringArray,
      pickStringArrayOptional, pickNumber, pickNumberOptional, pickNumberArray,
      pickNumberArrayOptional, pickBoolean, pickBooleanOptional, pickObject,
      pickObjectOptional, pickObjectArray, pickObjectArrayOptional,
      pickFullkeyName, bindM, getQuidQuid, getParentObjectKey;
    now rewrite Hn.
Qed.

Lemma accessor_is_fresh h this c child :
  fst (invoke h this c) = Ok (Accessor child) ->
  deref h child = None /\
  exists object, deref (snd (invoke h this c)) child = Some object.
Proof.
  unfold invoke. destruct (deref h this) as [object|] eqn:Hthis;
    [|now rewrite (perform_nowhere _ _ _ Hthis)].
  destruct c; cbn [perform]; unfold answering, bindM;
    rewrite ?(pickString_at _ _ _ Hthis), ?(pickStringOptional_at _ _ _ Hthis),
      ?(pickStringArray_at _ _ _ Hthis), ?(pickStringArrayOptional_at _ _ _ Hthis),
      ?(pickNumber_at _ _ _ Hthis), ?(pickNumberOptional_at _ _ _ Hthis),
      ?(pickNumberArray_at _ _ _ Hthis), ?(pickNumberArrayOptional_at _ _ _ Hthis),
      ?(pickBoolean_at _ _ _ Hthis), ?(pickBooleanOptional_at _ _ _ Hthis),
      ?(pickObject_at _ _ _ Hthis), ?(pickObjectOptional_at _ _ _ Hthis),
      ?(pickObjectArray_at _ _ _ Hthis), ?(pickObjectArrayOptional_at _ _ _ Hthis);
    match goal with
    | |- context [allocated _ _ _ ?r] => destruct r as [[x|]|e] || destruct r as [x|e]
    | |- context [match ?r with _ => _ end] => destruct r as [x|e]
    end;
    cbn; try discriminate;
    intros [= <-]; destruct (deref_fresh h x) as [Hf Hs]; split; eauto.
Qed.

(** C9.  Immutability frame.  With accessors as objects in a heap, the
    constructor as the only code that assigns their fields, and the
    methods as the programs the source has: no method call changes an
    accessor object.  Whatever calls a client makes, in whatever order
    and on whichever accessors, every object that existed before is
    found afterwards at its reference with the same wrapped value and the
    same parent key.  A call that hands back a child leaves the objects
    that were there as they were, and puts the child at a reference that
    named nothing before.  So an accessor built by [from] still wraps its
    value, with no parent key, after any sequence of calls. *)
Theorem accessor_state_is_frame (h : heap) (calls : list (ref * call)) :
  (forall this object,
      deref h this = Some object ->
      deref (snd (run h calls)) this = Some object) /\
  (forall this c r object,
      deref h r = Some object ->
      deref (snd (invoke h this c)) r = Some object) /\
  (forall this c child,
      fst (invoke h this c) = Ok (Accessor child) ->
      deref h child = None /\
      exists object, deref (snd (invoke h this c)) child = Some object) /\
  (forall quidQuid,
      exists this h0,
        from quidQuid h = (Ok this, h0) /\
        deref h this = None /\
        deref (snd (run h0 calls)) this = Some (Pick.new quidQuid None)).
Proof.
  split; [|split; [|split]].
  - intros this object. apply run_extends.
  - intros this c r object. apply frame_perform.
  - apply accessor_is_fresh.
  - intros quidQuid. unfold from. rewrite constructor_new.
    destruct (deref_fresh h (Pick.new quidQuid None)) as [Hf Hs].
    eexists _, _. split; [reflexivity|]. split; [exact Hf|].
    now apply run_extends.
Qed.
End Frame.

(** A client of [{a: {x: 1}}]: it takes the child at ["a"], reads from the
    child, fails on the root; the root object is as it was built. *)
Lemma accessor_state_is_frame_witness :
  Objects.from (VObj [("a", VObj [("x", VNum 1%float)])]) []
  = (Ok 0, [Pick.new (VObj [("a", VObj [("x", VNum 1%float)])]) None]) /\
  fst (Objects.run (zod := Zod3)
         [Pick.new (VObj [("a", VObj [("x", VNum 1%float)])]) None]
         [(0, Objects.PickObject "a"); (1, Objects.PickNumber "x");
          (0, Objects.PickString "zz")])
  = [Ok (Objects.Accessor 1); Ok (Objects.Data (VNum 1%float));
     Err (Error "zz must not be empty")] /\
  Objects.deref
    (snd (Objects.run (zod := Zod3)
            [Pick.new (VObj [("a", VObj [("x", VNum 1%float)])]) None]
            [(0, Objects.PickObject "a"); (1, Objects.PickNumber "x");
             (0, Objects.PickString "zz")]))
    0
  = Some (Pick.new (VObj [("a", VObj [("x", VNum 1%float)])]) None).
Proof.
  split; [reflexivity|]. split; [reflexivity|].
  apply (proj1 (accessor_state_is_frame (zod := Zod3)
                  [Pick.new (VObj [("a", VObj [("x", VNum 1%float)])]) None]
                  [(0, Objects.PickObject "a"); (1, Objects.PickNumber "x");
                   (0, Objects.PickString "zz")]) 0 _ eq_refl).
Defined.

(** ** The optional string variant on falsy values that are not strings *)

Section FalsyNonStrings.
Context {zod : ZodMajor}.

(** C10.  When a field holds a falsy value that is not a string (the
    number [0], the boolean [false] or [NaN]: a present value, which
    [z.string()] would reject), [pickStringOptional] returns
    [undefined], not an InvalidType failure: it tests [!value] before
    any validation runs.  [getStringOptional] does the same. *)
Theorem pickStringOptional_falsy_non_string
        (this : Pick.Quidquid) (key : string) (v : value) :
  getProp (Pick.quidQuid this) key = Ok v ->
  v = VNum 0%float \/ v = VBool false \/ v = VNum PrimFloat.nan ->
  looseEqUndefined v = false /\
  safeParse ZString v = false /\
  Pick.pickStringOptional this key = Ok VUndefined /\
  Get.getStringOptional (toGet this) key = Ok VUndefined.
Proof.
  intros read Hv.
  assert (falsy v = true /\ looseEqUndefined v = false /\ safeParse ZString v = false)
    as (Hf & Hp & Hs) by (destruct Hv as [-> | [-> | ->]]; now cbn).
  repeat split; try assumption.
  - now rewrite (pickStringOptional_cases _ _ _ read), Hf.
  - unfold Get.getStringOptional. cbn. now rewrite read; cbn [bind]; rewrite Hf.
Qed.
End FalsyNonStrings.

Lemma pickStringOptional_falsy_non_string_witness :
  Pick.pickStringOptional (zod := Zod3)
    (Pick.from (VObj [("zero", VNum 0%float); ("no", VBool false);
                      ("nan", VNum PrimFloat.nan)])) "zero" = Ok VUndefined /\
  Pick.pickStringOptional (zod := Zod3)
    (Pick.from (VObj [("zero", VNum 0%float); ("no", VBool false);
                      ("nan", VNum PrimFloat.nan)])) "no" = Ok VUndefined /\
  Pick.pickStringOptional (zod := Zod3)
    (Pick.from (VObj [("zero", VNum 0%float); ("no", VBool false);
                      ("nan", VNum PrimFloat.nan)])) "nan" = Ok VUndefined.
Proof.
  pose (this := Pick.from (VObj [("zero", VNum 0%float); ("no", VBool false);
                                 ("nan", VNum PrimFloat.nan)])).
  split; [|split].
  - apply (pickStringOptional_falsy_non_string (zod := Zod3) this "zero" (VNum 0%float) eq_refl).
    now left.
  - apply (pickStringOptional_falsy_non_string (zod := Zod3) this "no" (VBool false) eq_refl).
    now right; left.
  - apply (pickStringOptional_falsy_non_string (zod := Zod3) this "nan" (VNum PrimFloat.nan) eq_refl).
    now right; right.
Defined.

(** C3, the claim as first stated fails: it speaks of every accessor,
    and on an accessor that wraps [undefined] or [null] there is no field
    to find, yet no optional variant returns [undefined]: the read
    throws. *)
Lemma optional_on_nothing_throws :
  Pick.pickNumberOptional (zod := Zod3) (Pick.from VUndefined) "n" = Err TypeError /\
  Pick.pickNumberOptional (zod := Zod3) (Pick.from VUndefined) "n" <> Ok (Value VUndefined) /\
  Pick.pickStringOptional (zod := Zod3) (Pick.from VNull) "s" = Err TypeError /\
  Pick.pickObjectOptional (zod := Zod3) (Pick.from VNull) "o" = Err TypeError /\
  Pick.pickStringArrayOptional (zod := Zod4) (Pick.from VUndefined) "tags" = Err TypeError.
Proof. repeat split; discriminate. Qed.

Lemma optional_variants_witness :
  Pick.pickNumberOptional (zod := Zod3) (Pick.from (VObj [("n", VStr "seven")])) "n"
    = Err (Error "n must be a number") /\
  Pick.pickNumberOptional (zod := Zod3) (Pick.from (VObj [("n", VStr "seven")])) "m"
    = Ok (Value VUndefined) /\
  Pick.pickStringOptional (zod := Zod3) (Pick.from (VObj [("n", VStr "seven")])) "constructor"
    = Err (Error "constructor must be a string").
Proof.
  pose (this := Pick.from (VObj [("n", VStr "seven")])).
  destruct (optional_variants (zod := Zod3) this "n") as (_ & _ & Hn).
  destruct (Hn (VStr "seven") eq_refl) as (_ & _ & _ & Hinvalid & _).
  destruct (optional_variants (zod := Zod3) this "m") as (_ & _ & Hm).
  destruct (Hm VUndefined eq_refl) as ((_ & Hundef & _) & _).
  destruct (optional_variants (zod := Zod3) this "constructor") as (_ & _ & Hc).
  destruct (Hc Function eq_refl) as (_ & _ & Hfunction & _).
  split; [|split].
  - apply Hinvalid; reflexivity.
  - apply Hundef; reflexivity.
  - apply Hfunction; reflexivity.
Defined.


(** * Further properties of the accessors *)

(** ** What a success tells *)

Section Successes.
Context {zod : ZodMajor}.
Import Pick.

Lemma pickString_ok_iff this key (r : property) :
  pickString this key = Ok r <->
  getProp (quidQuid this) key = Ok r /\ exists s, r = VStr s /\ s <> "".
Proof.
  split.
  - unfold pickString.
    destruct (getProp (quidQuid this) key) as [v|e]; cbn [bind]; [|discriminate].
    destruct (falsy v) eqn:Hf; [discriminate|].
    destruct (safeParse ZString v) eqn:Hs; cbn [negb]; [|discriminate].
    intros [= <-]. split; [reflexivity|].
    apply safeParse_string in Hs as [s ->]. exists s. split; [reflexivity|].
    intros ->. discriminate.
  - intros (read & s & -> & Hs). rewrite (pickString_cases _ _ _ read).
    destruct s; [congruence | reflexivity].
Qed.

Lemma pickNumber_ok_iff this key (r : property) :
  pickNumber this key = Ok r <->
  getProp (quidQuid this) key = Ok r /\ exists n, r = VNum n /\ numberSuccess n = true.
Proof.
  split.
  - unfold pickNumber.
    destruct (getProp (quidQuid this) key) as [v|e]; cbn [bind]; [|discriminate].
    destruct (looseEqUndefined v); [discriminate|].
    destruct (safeParse ZNumber v) eqn:Hs; cbn [negb]; [|discriminate].
    intros [= <-]. split; [reflexivity | now apply safeParse_number].
  - intros (read & n & -> & Hn). rewrite (pickNumber_cases _ _ _ read). cbn.
    now rewrite Hn.
Qed.

Lemma pickBoolean_ok_iff this key (r : property) :
  pickBoolean this key = Ok r <->
  getProp (quidQuid this) key = Ok r /\ exists b, r = VBool b.
Proof.
  split.
  - unfold pickBoolean.
    destruct (getProp (quidQuid this) key) as [v|e]; cbn [bind]; [|discriminate].
    destruct (looseEqUndefined v); [discriminate|].
    destruct (safeParse ZBoolean v) eqn:Hs; cbn [negb]; [|discriminate].
    intros [= <-]. split; [reflexivity | now apply safeParse_boolean].
  - intros (read & b & ->). now rewrite (pickBoolean_cases _ _ _ read).
Qed.

Lemma pickObject_ok_iff this key child :
  pickObject this key = Ok child <->
  exists v, getProp (quidQuid this) key = Ok (Value v) /\ isObject v /\
            child = new v (Some key).
Proof.
  split.
  - unfold pickObject.
    destruct (getProp (quidQuid this) key) as [v|e]; cbn [bind]; [|discriminate].
    destruct (looseEqUndefined v); [discriminate|].
    destruct (safeParse ZObject v) eqn:Hs; cbn [negb]; [|discriminate].
    apply safeParse_object in Hs as (w & -> & Hw). cbn.
    intros [= <-]. now exists w.
  - intros (v & read & Hv & ->). rewrite (pickObject_cases _ _ _ read).
    assert (safeParse ZObject v = true) as Hs by (apply safeParse_object; now exists v).
    now rewrite (safeParse_present _ _ Hs), Hs.
Qed.

(** X1.  Typed results.  A required scalar accessor succeeds exactly
    when the field holds a value of its type, and then returns that very
    value: [pickString] a non-empty string, [pickNumber] a number that is
    not [NaN], [pickBoolean] a boolean. *)
Theorem required_scalars_succeed_iff (this : Quidquid) (key : string) (r : value) :
  (pickString this key = Ok r <->
   getProp (quidQuid this) key = Ok r /\ exists s, r = VStr s /\ s <> "") /\
  (pickNumber this key = Ok r <->
   getProp (quidQuid this) key = Ok r /\
   exists n, r = VNum n /\ numberSuccess n = true) /\
  (pickNumber this key = Ok r ->
   exists n, r = VNum n /\ PrimFloat.is_nan n = false) /\
  (pickBoolean this key = Ok r <->
   getProp (quidQuid this) key = Ok r /\ exists b, r = VBool b).
Proof.
  split; [|split; [|split]].
  - rewrite pickString_ok_iff.
    split; intros (read & s & E & Hs); (split; [exact read|]); exists s;
      (split; [|exact Hs]); [now injection E | now rewrite E].
  - rewrite pickNumber_ok_iff.
    split; intros (read & n & E & Hn); (split; [exact read|]); exists n;
      (split; [|exact Hn]); [now injection E | now rewrite E].
  - intros H. apply pickNumber_ok_iff in H as (_ & n & [= ->] & Hn).
    exists n. split; [reflexivity | now apply numberSuccess_not_nan].
  - rewrite pickBoolean_ok_iff.
    split; intros (read & b & E); (split; [exact read|]); exists b;
      [now injection E | now rewrite E].
Qed.

(** X2.  [pickObject] accepts objects and nothing else: it succeeds
    exactly when the read finds an object that is not an array (a plain
    object, or the prototype object that [__proto__] reads as), the child
    then wrapping that object under the parent key [key]; anything else
    that is present (an array, a string, a number, a boolean, or a
    function found at the name of an inherited method) is an InvalidType
    failure ([must be an object]). *)
Theorem pickObject_accepts_exactly_objects (this : Quidquid) (key : string) :
  (forall child,
      pickObject this key = Ok child <->
      exists v, getProp (quidQuid this) key = Ok (Value v) /\ isObject v /\
                child = new v (Some key)) /\
  (forall v : property,
      getProp (quidQuid this) key = Ok v ->
      looseEqUndefined v = false ->
      (forall w, v = Value w -> ~ isObject w) ->
      pickObject this key = Err (InvalidType (pickFullkeyName this key) "an object")) /\
  (forall fields,
      quidQuid this = VObj fields -> lookup "__proto__" fields = None ->
      pickObject this "__proto__" = Ok (new (VProto ObjectPrototype) (Some "__proto__"))).
Proof.
  split; [intros child; apply pickObject_ok_iff|]. split.
  - intros v read Hp Hno. rewrite (pickObject_cases _ _ _ read), Hp.
    destruct (safeParse ZObject v) eqn:Hs; [|reflexivity].
    apply safeParse_object in Hs as (w & -> & Hw). now destruct (Hno w eq_refl).
  - intros fields Hw Hown. unfold pickObject, getProp. rewrite Hw. cbn [own].
    now rewrite Hown.
Qed.
End Successes.

(** ** Children of [pickObject] *)

Section Children.
Context {zod : ZodMajor}.
Import Pick.

Lemma getProp_field fields key (r : value) :
  (forall p, r <> VProto p) -> r <> VUndefined ->
  getProp (VObj fields) key = Ok (Value r) <-> lookup key fields = Some r.
Proof.
  intros Hp Hu. split.
  - destruct (lookup key fields) as [v|] eqn:E.
    + rewrite (getProp_own_field _ _ _ E). now intros [= ->].
    + destruct (getProp_not_own _ _ E) as [H | [H | H]]; rewrite H; intros [= <-];
        [now destruct (Hp ObjectPrototype) | now destruct Hu].
  - apply getProp_own_field.
Qed.

(** A prototype object holds methods, its own prototype, and (for
    [String.prototype]) the length 0: the only scalar read off one. *)
Lemma getProp_prototype p key (r : value) :
  getProp (VProto p) key = Ok (Value r) ->
  (p = StringPrototype /\ key = "length" /\ r = VNum 0%float) \/
  (exists q, r = VProto q) \/ r = VNull \/ r = VUndefined.
Proof.
  unfold getProp. cbn [own].
  assert (forall q, inherited (VProto q) key = Value r ->
                    (exists q', r = VProto q') \/ r = VNull \/ r = VUndefined) as Hin.
  { intros q. unfold inherited.
    destruct (key =? "__proto__")%string.
    - destruct q; cbn; intros [= <-]; eauto.
    - destruct (existsb (named key) (chain (VProto q))); [discriminate|].
      intros [= <-]. now right; right. }
  destruct p; try (intros [= H]; right; now apply (Hin _ H)).
  destruct (key =? "length")%string eqn:E.
  - intros [= <-]. apply String.eqb_eq in E. now left.
  - intros [= H]. right. now apply (Hin _ H).
Qed.

(** X3.  The names a child reports.  Whatever the parent's own path
    prefix, the child handed back by [pickObject(key)] names its fields
    [key.k] (and plainly [k] when [key] is the empty string): a missing
    field [k] of the child fails with [key.k must not be empty].  The
    parent's prefix is not carried over. *)
Theorem child_names_use_only_its_key (this : Quidquid) (key : string) (child : Quidquid) :
  pickObject this key = Ok child ->
  (forall k, pickFullkeyName child k = if (key =? "")%string then k else key ++ "." ++ k) /\
  (forall k v, getProp (quidQuid child) k = Ok v -> looseEqUndefined v = true ->
               pickNumber child k =
               Err (Error ((if (key =? "")%string then k else key ++ "." ++ k)
                             ++ " must not be empty"))).
Proof.
  intros H. apply pickObject_child in H as [_ Hkey].
  assert (forall k, pickFullkeyName child k =
                    if (key =? "")%string then k else key ++ "." ++ k) as Hname.
  { intros k. unfold pickFullkeyName. rewrite Hkey. now destruct key. }
  split; [exact Hname|].
  intros k v read Hv. now rewrite (pickNumber_cases _ _ _ read), Hv, Hname.
Qed.

(** X4.  A child reads the nested object.  For the child handed back
    by [pickObject(a)] that wraps a plain object, the parent's field [a]
    is that object, and a required scalar accessor on [b] succeeds with
    [r] exactly when the object's own field [b] is [r], of the accessor's
    type: nothing a plain object inherits is a string, a number or a
    boolean.  A child that wraps a prototype object (the parent's
    [__proto__]) yields no string and no boolean, and one number only:
    the [length] of [String.prototype], which is 0. *)
Theorem child_reads_nested_field (this : Quidquid) (a : string) (child : Quidquid) :
  pickObject this a = Ok child ->
  (forall fields,
      quidQuid child = VObj fields ->
      getProp (quidQuid this) a = Ok (Value (VObj fields)) /\
      forall b (r : value),
        (pickString child b = Ok r <->
         lookup b fields = Some r /\ exists s, r = VStr s /\ s <> "") /\
        (pickNumber child b = Ok r <->
         lookup b fields = Some r /\ exists n, r = VNum n /\ numberSuccess n = true) /\
        (pickBoolean child b = Ok r <->
         lookup b fields = Some r /\ exists x, r = VBool x)) /\
  (forall p,
      quidQuid child = VProto p ->
      forall b (r : value),
        pickString child b <> Ok r /\
        pickBoolean child b <> Ok r /\
        (pickNumber child b = Ok r <->
         p = StringPrototype /\ b = "length" /\ r = VNum 0%float)).
Proof.
  intros H. pose proof (pickObject_child _ _ _ H) as [read _]. split.
  - intros fields Hw. rewrite Hw in read. split; [exact read|].
    intros b r.
    rewrite pickString_ok_iff, pickNumber_ok_iff, pickBoolean_ok_iff, Hw.
    split; [|split].
    + split.
      * intros (Hb & s & [= ->] & Hs). split; [|now exists s].
        apply getProp_field in Hb; [exact Hb | discriminate | discriminate].
      * intros (Hb & s & -> & Hs). split; [now apply getProp_own_field | now exists s].
    + split.
      * intros (Hb & n & [= ->] & Hn). split; [|now exists n].
        apply getProp_field in Hb; [exact Hb | discriminate | discriminate].
      * intros (Hb & n & -> & Hn). split; [now apply getProp_own_field | now exists n].
    + split.
      * intros (Hb & x & [= ->]). split; [|now exists x].
        apply getProp_field in Hb; [exact Hb | discriminate | discriminate].
      * intros (Hb & x & ->). split; [now apply getProp_own_field | now exists x].
  - intros p Hw b r.
    rewrite pickString_ok_iff, pickNumber_ok_iff, pickBoolean_ok_iff, Hw.
    split; [|split].
    + intros (Hb & s & [= ->] & _).
      destruct (getProp_prototype _ _ _ Hb) as [(_ & _ & E) | [[q E] | [E | E]]];
        discriminate E.
    + intros (Hb & x & [= ->]).
      destruct (getProp_prototype _ _ _ Hb) as [(_ & _ & E) | [[q E] | [E | E]]];
        discriminate E.
    + split.
      * intros (Hb & n & [= ->] & _).
        destruct (getProp_prototype _ _ _ Hb) as [E | [[q E] | [E | E]]];
          [exact E | discriminate E ..].
      * intros (-> & -> & ->). split; [reflexivity|].
        exists 0%float. split; [reflexivity | now destruct zod].
Qed.
End Children.

Lemma child_names_use_only_its_key_witness :
  Pick.pickFullkeyName (Pick.new (VObj []) (Some "b")) "c" = "b.c" /\
  Pick.pickNumber (zod := Zod3) (Pick.new (VObj []) (Some "b")) "c"
    = Err (Error "b.c must not be empty").
Proof.
  split.
  - apply (child_names_use_only_its_key (zod := Zod3)
             (Pick.new (VObj [("b", VObj [])]) (Some "grandparent.parent")) "b"
             (Pick.new (VObj []) (Some "b")) eq_refl).
  - apply (proj2 (child_names_use_only_its_key (zod := Zod3)
                    (Pick.new (VObj [("b", VObj [])]) (Some "grandparent.parent")) "b"
                    (Pick.new (VObj []) (Some "b")) eq_refl)
             "c" VUndefined eq_refl eq_refl).
Defined.

Lemma child_reads_nested_field_witness :
  Pick.pickNumber (zod := Zod3) (Pick.new (VObj [("n", VNum 7%float)]) (Some "a")) "n"
    = Ok (Value (VNum 7%float)) /\
  Pick.pickNumber (zod := Zod3) (Pick.new (VProto StringPrototype) (Some "__proto__"))
    "length" = Ok (Value (VNum 0%float)).
Proof.
  split.
  - apply (proj1 (child_reads_nested_field (zod := Zod3)
                    (Pick.from (VObj [("a", VObj [("n", VNum 7%float)])])) "a"
                    (Pick.new (VObj [("n", VNum 7%float)]) (Some "a")) eq_refl)
             [("n", VNum 7%float)] eq_refl).
    split; [reflexivity|]. exists 7%float. now split.
  - apply (proj2 (child_reads_nested_field (zod := Zod3)
                    (Pick.from (VStr "abc")) "__proto__"
                    (Pick.new (VProto StringPrototype) (Some "__proto__")) eq_refl)
             StringPrototype eq_refl).
    now repeat split.
Defined.

(** ** The failures of a call *)

Section Failures.
Context {zod : ZodMajor}.
Import Objects Pick.

Lemma arrayRead_total this key :
  looseEqUndefined (quidQuid this) = false -> exists w, arrayRead this key = Ok w.
Proof.
  intros Hp. destruct key as [[|c k]|]; cbn; try (now eexists).
  now apply getProp_present.
Qed.

Lemma failure_some {A : Type} (r : result A) : failure (some r) = failure r.
Proof. now destruct r. Qed.

Lemma failure_cases {A : Type} (absent valid : bool) name what (ok : result A) e :
  In what kinds ->
  (valid = true -> failure ok = None) ->
  failure (if absent then Err (MissingField name)
           else if valid then ok else Err (InvalidType name what)) = Some e ->
  (absent = true /\ isMissingField e) \/ (absent = false /\ isInvalidType e).
Proof.
  intros Hin Hok. destruct absent; cbn.
  - intros [= <-]. left. split; [reflexivity | now exists name].
  - destruct valid; [now rewrite Hok|]. intros [= <-].
    right. split; [reflexivity | now exists name, what].
Qed.

Lemma failure_cases_two {A : Type} (absent valid : bool) name what (ok : result A) e :
  In what kinds ->
  (valid = true -> failure ok = None) ->
  failure (if absent then Err (MissingField name)
           else if valid then ok else Err (InvalidType name what)) = Some e ->
  twoKinds e.
Proof.
  intros Hin Hok H. destruct (failure_cases _ _ _ _ _ _ Hin Hok H) as [[_ ?]|[_ ?]];
    [now left | now right].
Qed.

Ltac kind := cbn; tauto.

Lemma mapNew_succeeds v : safeParse (ZArray ZObject) v = true -> failure (mapNew v) = None.
Proof. intros H. now apply mapNew_of_array in H as (l & _ & ->). Qed.

Lemma newOf_succeeds v key : safeParse ZObject v = true -> failure (newOf v key) = None.
Proof. intros H. now apply (newOf_of_object _ key) in H as (w & _ & ->). Qed.

(** The required accessors on a wrapped value that is not [undefined] or
    [null]. *)
Lemma required_failures this c e :
  looseEqUndefined (quidQuid this) = false ->
  isOptional c = false ->
  failureOf this c = Some e -> twoKinds e.
Proof.
  intros Hp Hc.
  destruct c; try discriminate Hc; cbn [failureOf];
    try (destruct (getProp_present _ key Hp) as [v read]).
  - rewrite (pickString_cases _ _ _ read). apply failure_cases_two; [kind | easy].
  - rewrite pickStringArray_cases. destruct (arrayRead_total this key Hp) as [w ->].
    cbn [bind]. apply failure_cases_two; [kind | easy].
  - rewrite (pickNumber_cases _ _ _ read). apply failure_cases_two; [kind | easy].
  - rewrite pickNumberArray_cases. destruct (arrayRead_total this key Hp) as [w ->].
    cbn [bind]. apply failure_cases_two; [kind | easy].
  - rewrite (pickBoolean_cases _ _ _ read). apply failure_cases_two; [kind | easy].
  - rewrite (pickObject_cases _ _ _ read).
    apply failure_cases_two; [kind | apply newOf_succeeds].
  - rewrite pickObjectArray_cases. destruct (arrayRead_total this key Hp) as [w ->].
    cbn [bind]. apply failure_cases_two; [kind | apply mapNew_succeeds].
Qed.

(** An optional accessor fails only as its required variant does, on a
    field that read as present. *)
Lemma optional_failures this c e :
  isOptional c = true ->
  failureOf this c = Some e ->
  (e = TypeError /\ looseEqUndefined (quidQuid this) = true) \/
  (looseEqUndefined (quidQuid this) = false /\ isInvalidType e).
Proof.
  intros Hc.
  assert (forall key v, getProp (quidQuid this) key = Ok v ->
                        looseEqUndefined (quidQuid this) = false) as Hwrapped.
  { intros key v read. destruct (looseEqUndefined (quidQuid this)) eqn:E; [|reflexivity].
    destruct (quidQuid this); discriminate. }
  destruct c; try discriminate Hc; cbn [failureOf];
    (destruct (getProp (quidQuid this) key) as [v|e0] eqn:read;
     [ pose proof (Hwrapped _ _ read) as Hp
     | apply getProp_error in read as [-> Hn] ]).
  all: try (match goal with
            | |- failure ?r = Some _ -> _ =>
                unfold pickStringOptional, pickStringArrayOptional, pickNumberOptional,
                  pickNumberArrayOptional, pickBooleanOptional, pickObjectOptional,
                  pickObjectArrayOptional;
                destruct (quidQuid this); try discriminate Hn; cbn;
                intros [= <-]; left; now split
            end).
  - rewrite (pickStringOptional_cases _ _ _ read), (pickString_cases _ _ _ read).
    destruct (falsy v); [discriminate|]. intros H. right. split; [exact Hp|].
    destruct (safeParse ZString v); [discriminate|]. injection H as <-.
    eexists _, _; split; [|reflexivity]. kind.
  - rewrite (pickStringArrayOptional_cases _ _ _ read).
    destruct (looseEqUndefined v) eqn:Hv; [discriminate|].
    destruct (arrayRead_present _ _ _ read Hv) as (w & Hr & Hw & _).
    rewrite pickStringArray_cases, Hr. cbn [bind]. rewrite Hw. intros H.
    right. split; [exact Hp|].
    destruct (safeParse (ZArray ZString) w); [discriminate|]. injection H as <-.
    eexists _, _; split; [|reflexivity]. kind.
  - rewrite (pickNumberOptional_cases _ _ _ read), (pickNumber_cases _ _ _ read).
    destruct (looseEqUndefined v); [discriminate|]. intros H. right. split; [exact Hp|].
    destruct (safeParse ZNumber v); [discriminate|]. injection H as <-.
    eexists _, _; split; [|reflexivity]. kind.
  - rewrite (pickNumberArrayOptional_cases _ _ _ read).
    destruct (looseEqUndefined v) eqn:Hv; [discriminate|].
    destruct (arrayRead_present _ _ _ read Hv) as (w & Hr & Hw & _).
    rewrite pickNumberArray_cases, Hr. cbn [bind]. rewrite Hw. intros H.
    right. split; [exact Hp|].
    destruct (safeParse (ZArray ZNumber) w); [discriminate|]. injection H as <-.
    eexists _, _; split; [|reflexivity]. kind.
  - rewrite (pickBooleanOptional_cases _ _ _ read), (pickBoolean_cases _ _ _ read).
    destruct (looseEqUndefined v); [discriminate|]. intros H. right. split; [exact Hp|].
    destruct (safeParse ZBoolean v); [discriminate|]. injection H as <-.
    eexists _, _; split; [|reflexivity]. kind.
  - rewrite (pickObjectOptional_cases _ _ _ read), (pickObject_cases _ _ _ read).
    destruct (looseEqUndefined v); [discriminate|]. rewrite failure_some.
    intros H. right. split; [exact Hp|].
    destruct (safeParse ZObject v) eqn:Hs;
      [now rewrite (newOf_succeeds _ key Hs) in H|]. injection H as <-.
    eexists _, _; split; [|reflexivity]. kind.
  - rewrite (pickObjectArrayOptional_cases _ _ _ read).
    destruct (looseEqUndefined v) eqn:Hv; [discriminate|].
    destruct (arrayRead_present _ _ _ read Hv) as (w & Hr & Hw & _).
    rewrite failure_some, pickObjectArray_cases, Hr. cbn [bind]. rewrite Hw. intros H.
    right. split; [exact Hp|].
    destruct (safeParse (ZArray ZObject) w) eqn:Hs;
      [now rewrite (mapNew_succeeds _ Hs) in H|]. injection H as <-.
    eexists _, _; split; [|reflexivity]. kind.
Qed.

Lemma failureOf_two_kinds this c e :
  looseEqUndefined (quidQuid this) = false ->
  failureOf this c = Some e -> twoKinds e.
Proof.
  intros Hp H. destruct (isOptional c) eqn:Hc.
  - destruct (optional_failures _ _ _ Hc H) as [[_ Hn]|[_ Hi]]; [congruence | now right].
  - now apply (required_failures this c).
Qed.
End Failures.

Section FailureKinds.
Context {zod : ZodMajor}.
Import Objects Pick.

(** X5.  Two kinds of failure.  On an accessor whose wrapped value is
    not [undefined] or [null], a call of any of the fourteen methods,
    with any key, fails only with MissingField or InvalidType, and never
    with both: no property read throws. *)
Theorem present_accessor_fails_in_two_kinds (this : Quidquid) (c : call) (e : exn) :
  looseEqUndefined (quidQuid this) = false ->
  failureOf this c = Some e ->
  (isMissingField e \/ isInvalidType e) /\
  ~ (isMissingField e /\ isInvalidType e) /\
  e <> TypeError.
Proof.
  intros Hp H. pose proof (failureOf_two_kinds _ _ _ Hp H) as Hk.
  split; [exact Hk|]. split.
  - intros [Hm Hi]. now apply (MissingField_not_InvalidType e).
  - intros ->. destruct TypeError_no_kind as [Hm Hi]. now destruct Hk.
Qed.

Lemma pickObjectArray_children this key children :
  pickObjectArray this key = Ok children -> Forall wrapsObject children.
Proof.
  rewrite pickObjectArray_cases.
  destruct (arrayRead this key) as [w|e]; cbn [bind]; [|discriminate].
  destruct (looseEqUndefined w); [discriminate|].
  destruct (safeParse (ZArray ZObject) w) eqn:E; [|discriminate].
  apply safeParse_array in E as (l & -> & Hall). cbn. intros [= <-].
  apply Forall_forall. intros child Hin.
  apply in_map_iff in Hin as (x & <- & Hx).
  rewrite Forall_forall in Hall.
  now apply Hall, safeParse_object in Hx as (v & [= <-] & Hv).
Qed.

(** X6.  Accessors handed back wrap objects.  Every accessor
    returned by [pickObject], [pickObjectOptional], [pickObjectArray] or
    [pickObjectArrayOptional] wraps an object (a plain one, or a
    prototype object read through [__proto__]); so no call on such an
    accessor throws on a property read: it fails, if it fails, with
    MissingField or InvalidType. *)
Theorem handed_back_accessors_wrap_objects (this : Quidquid) :
  (forall key child, pickObject this key = Ok child -> wrapsObject child) /\
  (forall key child, pickObjectOptional this key = Ok (Some child) -> wrapsObject child) /\
  (forall key children, pickObjectArray this key = Ok children ->
                        Forall wrapsObject children) /\
  (forall key children, pickObjectArrayOptional this key = Ok (Some children) ->
                        Forall wrapsObject children) /\
  (forall child, wrapsObject child ->
                 forall c e, failureOf child c = Some e ->
                             isMissingField e \/ isInvalidType e).
Proof.
  assert (forall key child, pickObject this key = Ok child -> wrapsObject child) as Hobj.
  { intros key child H. now apply pickObject_ok_iff in H as (v & _ & Hv & ->). }
  split; [exact Hobj|]. split; [|split; [|split]].
  - intros key child. unfold pickObjectOptional.
    destruct (getProp (quidQuid this) key) as [v|e]; cbn [bind]; [|discriminate].
    destruct (looseEqUndefined v); [discriminate|].
    destruct (pickObject this key) as [c|e] eqn:E; cbn; [|discriminate].
    intros [= <-]. now apply (Hobj key).
  - exact (pickObjectArray_children this).
  - intros key children. unfold pickObjectArrayOptional.
    destruct (getProp (quidQuid this) key) as [v|e]; cbn [bind]; [|discriminate].
    destruct (looseEqUndefined v); [discriminate|].
    destruct (pickObjectArray this (Some key)) as [cs|e] eqn:E; cbn; [|discriminate].
    intros [= <-]. now apply (pickObjectArray_children this (Some key)).
  - intros child Hw c e. apply failureOf_two_kinds.
    now destruct Hw as [[fields ->] | [p ->]].
Qed.

(** X7.  Reading off nothing.  On an accessor that wraps [undefined] or
    [null], every call that starts by reading a field (all the keyed
    ones, the optional variants included) throws the runtime's TypeError;
    only the required array accessors called with no key fail with
    [body must not be empty]. *)
Theorem calls_on_nothing (this : Quidquid) (c : call) :
  looseEqUndefined (quidQuid this) = true ->
  (readsField c = true -> failureOf this c = Some TypeError) /\
  (readsField c = false -> failureOf this c = Some (Error "body must not be empty")).
Proof.
  intros Hn.
  assert (forall key, getProp (quidQuid this) key = Err TypeError) as Hread
      by (intros key; destruct (quidQuid this); try discriminate; reflexivity).
  split; intros Hc;
    destruct c as [k|k|[[|a k]|]|k|k|k|[[|a k]|]|k|k|k|k|k|[[|a k]|]|k];
    try discriminate Hc; cbn [failureOf];
    unfold pickString, pickStringOptional, pickStringArray, pickStringArrayOptional,
      pickNumber, pickNumberOptional, pickNumberArray, pickNumberArrayOptional,
      pickBoolean, pickBooleanOptional, pickObject, pickObjectOptional,
      pickObjectArray, pickObjectArrayOptional;
    rewrite ?Hread, ?Hn; reflexivity.
Qed.

(** X8.  Optional variants never report a missing field.  A call of an
    optional variant fails only with InvalidType, on a field that read as
    present, or with the TypeError of reading off [undefined] or [null];
    never with MissingField. *)
Theorem optional_variants_never_missing (this : Quidquid) (c : call) (e : exn) :
  isOptional c = true ->
  failureOf this c = Some e ->
  ~ isMissingField e /\
  ((e = TypeError /\ looseEqUndefined (quidQuid this) = true) \/
   (isInvalidType e /\ looseEqUndefined (quidQuid this) = false)).
Proof.
  intros Hc H. destruct (optional_failures _ _ _ Hc H) as [[-> Hn]|[Hp Hi]].
  - split; [apply TypeError_no_kind | now left].
  - split; [|now right]. intros Hm. now apply (MissingField_not_InvalidType e).
Qed.
End FailureKinds.

Lemma present_accessor_fails_in_two_kinds_witness :
  isMissingField (Error "tags must not be empty") \/
  isInvalidType (Error "tags must not be empty").
Proof.
  apply (present_accessor_fails_in_two_kinds (zod := Zod3)
           (Pick.from (VObj [])) (Objects.PickStringArray (Some "tags"))
           (Error "tags must not be empty") eq_refl eq_refl).
Defined.

Lemma handed_back_accessors_wrap_objects_witness :
  wrapsObject (Pick.new (VObj [("x", VNum 1%float)]) (Some "a")).
Proof.
  apply (proj1 (handed_back_accessors_wrap_objects (zod := Zod3)
                  (Pick.from (VObj [("a", VObj [("x", VNum 1%float)])])))
           "a" (Pick.new (VObj [("x", VNum 1%float)]) (Some "a")) eq_refl).
Defined.

Lemma calls_on_nothing_witness :
  Pick.pickNumberOptional (zod := Zod3) (Pick.from VUndefined) "n" = Err TypeError /\
  Pick.pickNumberArray (zod := Zod3) (Pick.from VNull) None = Err (Error "body must not be empty").
Proof.
  split.
  - pose proof (proj1 (calls_on_nothing (zod := Zod3) (Pick.from VUndefined)
                         (Objects.PickNumberOptional "n") eq_refl) eq_refl) as H.
    cbn [failureOf] in H.
    destruct (Pick.pickNumberOptional (Pick.from VUndefined) "n"); [discriminate H|].
    now injection H as ->.
  - pose proof (proj2 (calls_on_nothing (zod := Zod3) (Pick.from VNull)
                         (Objects.PickNumberArray None) eq_refl) eq_refl) as H.
    cbn [failureOf] in H.
    destruct (Pick.pickNumberArray (Pick.from VNull) None); [discriminate H|].
    now injection H as ->.
Defined.

Lemma optional_variants_never_missing_witness :
  failureOf (zod := Zod3) (Pick.from (VObj [("n", VStr "seven")]))
    (Objects.PickNumberOptional "n") = Some (Error "n must be a number") /\
  ~ isMissingField (Error "n must be a number").
Proof.
  split; [reflexivity|].
  apply (optional_variants_never_missing (zod := Zod3)
           (Pick.from (VObj [("n", VStr "seven")])) (Objects.PickNumberOptional "n")
           (Error "n must be a number") eq_refl eq_refl).
Defined.

(** ** Required and optional variants, side by side *)

Section RequiredAndOptional.
Context {zod : ZodMajor}.
Import Pick.

Lemma array_ok (r : result property) s name what w :
  (let! v := r in
   if looseEqUndefined v then Err (MissingField name)
   else if safeParse (ZArray s) v then Ok v else Err (InvalidType name what)) = Ok w ->
  r = Ok w /\ looseEqUndefined w = false /\ safeParse (ZArray s) w = true.
Proof.
  destruct r as [v|e]; cbn [bind]; [|discriminate].
  destruct (looseEqUndefined v) eqn:Hv; [discriminate|].
  destruct (safeParse (ZArray s) v) eqn:Hs; [|discriminate].
  intros [= <-]. now repeat split.
Qed.

Lemma objectArray_ok this key children :
  pickObjectArray this key = Ok children ->
  exists elements, arrayRead this key = Ok (Value (VArr elements)) /\
                   children = map from elements.
Proof.
  rewrite pickObjectArray_cases.
  destruct (arrayRead this key) as [w|e]; cbn [bind]; [|discriminate].
  destruct (looseEqUndefined w); [discriminate|].
  destruct (safeParse (ZArray ZObject) w) eqn:E; [|discriminate].
  apply safeParse_array in E as (l & -> & _). cbn. intros [= <-]. now exists l.
Qed.

Lemma read_empty_key_of_array elements :
  getProp (VArr elements) "" = Ok VUndefined.
Proof. reflexivity. Qed.

(** X9.  Where the required variant succeeds, the optional variant
    returns the same.  This holds for every scalar and object accessor
    with any key, and for the array accessors with a non-empty key. *)
Theorem optional_returns_what_required_returns (this : Quidquid) (key : string) :
  (forall r, pickString this key = Ok r -> pickStringOptional this key = Ok r) /\
  (forall r, pickNumber this key = Ok r -> pickNumberOptional this key = Ok r) /\
  (forall r, pickBoolean this key = Ok r -> pickBooleanOptional this key = Ok r) /\
  (forall child, pickObject this key = Ok child ->
                 pickObjectOptional this key = Ok (Some child)) /\
  (key <> "" ->
   (forall r, pickStringArray this (Some key) = Ok r ->
              pickStringArrayOptional this key = Ok r) /\
   (forall r, pickNumberArray this (Some key) = Ok r ->
              pickNumberArrayOptional this key = Ok r) /\
   (forall children, pickObjectArray this (Some key) = Ok children ->
                     pickObjectArrayOptional this key = Ok (Some children))).
Proof.
  repeat match goal with |- _ /\ _ => split end.
  - intros r H. pose proof H as H'.
    apply pickString_ok_iff in H' as (read & s & -> & Hs).
    rewrite (pickStringOptional_cases _ _ _ read), H. cbn. now destruct s.
  - intros r H. pose proof H as H'.
    apply pickNumber_ok_iff in H' as (read & n & -> & _).
    now rewrite (pickNumberOptional_cases _ _ _ read), H.
  - intros r H. pose proof H as H'.
    apply pickBoolean_ok_iff in H' as (read & b & ->).
    now rewrite (pickBooleanOptional_cases _ _ _ read), H.
  - intros child H. pose proof H as H'.
    apply pickObject_ok_iff in H' as (v & read & Hv & ->).
    rewrite (pickObjectOptional_cases _ _ _ read), H.
    now destruct Hv as [[fields ->] | [p ->]].
  - intros Hk.
    destruct (arrayRead_keyed this key Hk) as [Hread _].
    repeat match goal with |- _ /\ _ => split end.
    + intros r H. pose proof H as H'. rewrite pickStringArray_cases in H'.
      apply array_ok in H' as (read & Hp & _). rewrite Hread in read.
      now rewrite (pickStringArrayOptional_cases _ _ _ read), Hp.
    + intros r H. pose proof H as H'. rewrite pickNumberArray_cases in H'.
      apply array_ok in H' as (read & Hp & _). rewrite Hread in read.
      now rewrite (pickNumberArrayOptional_cases _ _ _ read), Hp.
    + intros children H.
      destruct (objectArray_ok _ _ _ H) as (l & read & _). rewrite Hread in read.
      now rewrite (pickObjectArrayOptional_cases _ _ _ read), H.
Qed.

(** X10.  Required arrays by key.  With a non-empty key whose field
    reads as [v] (own or inherited, a value or a function), and [name]
    the full key name: each required array
    accessor fails with [name must not be empty] when [v] is [undefined]
    or [null], fails with [name must be an array of ...] when [v] is
    present and is not an array of the element type, and otherwise
    returns [v] itself ([pickStringArray], [pickNumberArray]) or one
    accessor per element, in order and with no parent key
    ([pickObjectArray]). *)
Theorem keyed_array_contract (this : Quidquid) (key : string) (v : property) :
  key <> "" ->
  getProp (quidQuid this) key = Ok v ->
  let name := pickFullkeyName this key in
  (looseEqUndefined v = true ->
   pickStringArray this (Some key) = Err (MissingField name) /\
   pickNumberArray this (Some key) = Err (MissingField name) /\
   pickObjectArray this (Some key) = Err (MissingField name)) /\
  (looseEqUndefined v = false ->
   (safeParse (ZArray ZString) v = false ->
    pickStringArray this (Some key) = Err (InvalidType name "an array of strings")) /\
   (safeParse (ZArray ZNumber) v = false ->
    pickNumberArray this (Some key) = Err (InvalidType name "an array of numbers")) /\
   (safeParse (ZArray ZObject) v = false ->
    pickObjectArray this (Some key) = Err (InvalidType name "an array of objects"))) /\
  (safeParse (ZArray ZString) v = true -> pickStringArray this (Some key) = Ok v) /\
  (safeParse (ZArray ZNumber) v = true -> pickNumberArray this (Some key) = Ok v) /\
  (forall elements,
      v = VArr elements ->
      Forall isObject elements ->
      pickObjectArray this (Some key) = Ok (map (fun x => new x None) elements)).
Proof.
  intros Hk read name. subst name.
  destruct (arrayRead_keyed this key Hk) as [Hread Hname].
  rewrite pickStringArray_cases, pickNumberArray_cases, pickObjectArray_cases,
    Hread, Hname, read. cbn [bind].
  repeat match goal with |- _ /\ _ => split end.
  - intros ->. now repeat split.
  - intros ->. repeat split; now intros ->.
  - intros H. now rewrite (safeParse_present _ _ H), H.
  - intros H. now rewrite (safeParse_present _ _ H), H.
  - intros l -> Hall. cbn [looseEqUndefined].
    assert (safeParse (ZArray ZObject) (VArr l) = true) as ->; [|reflexivity].
    apply safeParse_array. exists l. split; [reflexivity|].
    now apply Forall_safeParse_object.
Qed.

(** X11.  The empty key on optional arrays.  Called with the empty
    string as key, an optional array accessor tests the field named [""]
    for absence but then validates the wrapped value itself (the required
    variant takes the empty key for no key).  So it never hands back an
    array: it returns [undefined] when that field is absent, even on an
    accessor wrapping a valid array, and fails with
    [body must be an array of ...] whenever that field is present. *)
Theorem optional_arrays_with_empty_key (this : Quidquid) :
  (forall r, pickStringArrayOptional this "" = Ok r -> r = VUndefined) /\
  (forall r, pickNumberArrayOptional this "" = Ok r -> r = VUndefined) /\
  (forall r, pickObjectArrayOptional this "" = Ok r -> r = None) /\
  (forall elements,
      quidQuid this = VArr elements ->
      pickStringArrayOptional this "" = Ok VUndefined /\
      pickNumberArrayOptional this "" = Ok VUndefined /\
      pickObjectArrayOptional this "" = Ok None) /\
  (forall v,
      getProp (quidQuid this) "" = Ok v -> looseEqUndefined v = false ->
      pickStringArrayOptional this "" = Err (Error "body must be an array of strings") /\
      pickNumberArrayOptional this "" = Err (Error "body must be an array of numbers") /\
      pickObjectArrayOptional this "" = Err (Error "body must be an array of objects")).
Proof.
  assert (forall v,
             getProp (quidQuid this) "" = Ok v -> looseEqUndefined v = false ->
             pickStringArrayOptional this ""
               = Err (Error "body must be an array of strings") /\
             pickNumberArrayOptional this ""
               = Err (Error "body must be an array of numbers") /\
             pickObjectArrayOptional this ""
               = Err (Error "body must be an array of objects")) as Hpresent.
  { intros v read Hv.
    destruct (read_empty_key_present _ _ read Hv) as [fields Hw].
    rewrite (pickStringArrayOptional_cases _ _ _ read),
      (pickNumberArrayOptional_cases _ _ _ read),
      (pickObjectArrayOptional_cases _ _ _ read), Hv.
    unfold pickStringArray, pickNumberArray, pickObjectArray. rewrite Hw.
    now repeat split. }
  assert (forall A (opt : property -> result A) (undef : A) r,
             (forall v, getProp (quidQuid this) "" = Ok v ->
                        looseEqUndefined v = false -> exists e, opt v = Err e) ->
             (let! v := getProp (quidQuid this) "" in
              if looseEqUndefined v then Ok undef else opt v) = Ok r ->
             r = undef) as Hnever.
  { intros A opt undef r Hopt.
    destruct (getProp (quidQuid this) "") as [v|e]; cbn [bind]; [|discriminate].
    destruct (looseEqUndefined v) eqn:Hv; [now intros [= <-]|].
    destruct (Hopt v eq_refl Hv) as [e ->]. discriminate. }
  split; [|split; [|split; [|split]]].
  - intros r.
    apply (Hnever _ (fun _ => pickStringArray this (Some "")) (Value VUndefined) r).
    intros v read Hv. destruct (Hpresent v read Hv) as (H & _ & _).
    rewrite (pickStringArrayOptional_cases _ _ _ read), Hv in H.
    eexists; exact H.
  - intros r.
    apply (Hnever _ (fun _ => pickNumberArray this (Some "")) (Value VUndefined) r).
    intros v read Hv. destruct (Hpresent v read Hv) as (_ & H & _).
    rewrite (pickNumberArrayOptional_cases _ _ _ read), Hv in H.
    eexists; exact H.
  - intros r.
    apply (Hnever _ (fun _ => some (pickObjectArray this (Some ""))) None r).
    intros v read Hv. destruct (Hpresent v read Hv) as (_ & _ & H).
    rewrite (pickObjectArrayOptional_cases _ _ _ read), Hv in H.
    eexists; exact H.
  - intros l Hw.
    unfold pickStringArrayOptional, pickNumberArrayOptional, pickObjectArrayOptional.
    rewrite Hw. now repeat split.
  - exact Hpresent.
Qed.
End RequiredAndOptional.

Lemma keyed_array_contract_witness :
  Pick.pickStringArray (zod := Zod3)
    (Pick.new (VObj [("tags", VArr [VStr "a"; VStr ""])]) (Some "post")) (Some "tags")
    = Ok (VArr [VStr "a"; VStr ""]) /\
  Pick.pickNumberArray (zod := Zod3)
    (Pick.new (VObj [("tags", VArr [VStr "a"; VStr ""])]) (Some "post")) (Some "tags")
    = Err (Error "post.tags must be an array of numbers").
Proof.
  split.
  - apply (keyed_array_contract (zod := Zod3)
             (Pick.new (VObj [("tags", VArr [VStr "a"; VStr ""])]) (Some "post")) "tags"
             (VArr [VStr "a"; VStr ""])); [discriminate | reflexivity | reflexivity].
  - apply (keyed_array_contract (zod := Zod3)
             (Pick.new (VObj [("tags", VArr [VStr "a"; VStr ""])]) (Some "post")) "tags"
             (VArr [VStr "a"; VStr ""])); [discriminate | reflexivity | reflexivity | reflexivity].
Defined.

Lemma optional_arrays_with_empty_key_witness :
  Pick.pickStringArray (zod := Zod3) (Pick.from (VArr [VStr "a"])) (Some "")
    = Ok (VArr [VStr "a"]) /\
  Pick.pickStringArrayOptional (zod := Zod3) (Pick.from (VArr [VStr "a"])) ""
    = Ok VUndefined /\
  Pick.pickStringArrayOptional (zod := Zod3) (Pick.from (VObj [("", VArr [VStr "a"])])) ""
    = Err (Error "body must be an array of strings").
Proof.
  split; [reflexivity|]. split.
  - apply (optional_arrays_with_empty_key (zod := Zod3) (Pick.from (VArr [VStr "a"])))
      with (elements := [VStr "a"]).
    reflexivity.
  - apply (optional_arrays_with_empty_key (zod := Zod3)
             (Pick.from (VObj [("", VArr [VStr "a"])])))
      with (v := VArr [VStr "a"]); reflexivity.
Defined.

(** ** The [get*] class on its own *)

Section GetChildren.
Context {zod : ZodMajor}.
Import Get.

(** X12.  [getObject] in the second class builds its child as
    [pickObject] does in the first: the child wraps what the read found,
    which is an object (a plain one, or a prototype object), and records
    the bare [key], so it names its own fields [key.k] (plainly [k] for
    the empty key) whatever the parent's prefix. *)
Theorem getObject_child (this : Quidquid) (key : string) (child : Quidquid) :
  getObject this key = Ok child ->
  (exists v, getProp (quidQuid this) key = Ok (Value v) /\ isObject v /\
             child = new v (Some key)) /\
  (forall k, getFullkeyName child k = if (key =? "")%string then k else key ++ "." ++ k).
Proof.
  unfold getObject.
  destruct (getProp (quidQuid this) key) as [v|e]; cbn [bind]; [|discriminate].
  destruct (looseEqUndefined v); [discriminate|].
  destruct (safeParse ZObject v) eqn:Hs; cbn [negb]; [|discriminate].
  apply safeParse_object in Hs as (w & -> & Hw). cbn.
  intros [= <-]. split; [now exists w|].
  intros k. unfold getFullkeyName. cbn. now destruct key.
Qed.
End GetChildren.

Lemma getObject_child_witness :
  Get.getFullkeyName (Get.new (VObj []) (Some "b")) "c" = "b.c".
Proof.
  apply (getObject_child (zod := Zod3)
           (Get.new (VObj [("b", VObj [])]) (Some "a")) "b"
           (Get.new (VObj []) (Some "b")) eq_refl).
Defined.
